(** * browser-mcp: a shallow embedding of the session engine

    The development follows the TypeScript sources of the repository:

    - [src/session.ts]: the bounded diagnostics buffers, the module-level
      session registry with its shared browser handle, and the console and
      network observers attached to every page;
    - the [diagnostics] tool handler (read / filter / limit / clear);
    - [performAction], the dispatcher over action types;
    - [src/tools/describe.ts] and [src/vision/index.ts];
    - the sequence runner, whose source is not part of the repository
      snapshot and is modelled from the specification.

    JavaScript values are modelled as the code uses them: arrays as lists
    (oldest entry first), [Map<string, _>] as [gmap string _], optional
    fields as [option], numbers that are used as integers as [Z], and calls
    into Playwright as an explicit trace of page operations whose outcome is
    supplied by the environment.  An [async] function is modelled as running
    from its call to its return without another call interleaving at its
    [await]s; what the browser does meanwhile (the events a page emits, a
    rejected promise) is an argument of the function. *)

From stdpp Require Import gmap strings list fin_maps pretty.

Local Open Scope nat_scope.

(** ** JavaScript truthiness of optional strings

    [!s] for [s : string | undefined] holds for [undefined] and for the
    empty string. *)
Definition falsy (s : option string) : bool :=
  match s with
  | None => true
  | Some ""%string => true
  | Some _ => false
  end.

Definition truthy (s : option string) : bool := negb (falsy s).

(** [a || b] on an optional string with a string default. *)
Definition or_default (s : option string) (d : string) : string :=
  match s with
  | None => d
  | Some ""%string => d
  | Some v => v
  end.

(** ** The diagnostics buffer ([addToBuffer], session.ts 56-61) *)
Module Buffer.

Definition MAX_BUFFER_SIZE : nat := 100.

(** [buffer.push(entry); if (buffer.length > MAX_BUFFER_SIZE) buffer.shift()].
    The head of the list is the oldest entry. *)
Definition addToBuffer {T} (buffer : list T) (entry : T) : list T :=
  let pushed := buffer ++ [entry] in
  if MAX_BUFFER_SIZE <? length pushed then tail pushed else pushed.

(** A run of insertions, in arrival order. *)
Definition addAll {T} (buffer : list T) (entries : list T) : list T :=
  fold_left addToBuffer entries buffer.

(** The last [n] elements of a list. *)
Definition lastn {T} (n : nat) (l : list T) : list T :=
  drop (length l - n) l.

End Buffer.

(** ** Results of fallible calls

    An [async] function either resolves to a value or rejects with an
    [Error]; only the error's message is kept. *)
Inductive result (A : Type) : Type :=
| Ok (value : A)
| Throw (message : string).
Arguments Ok {A} value.
Arguments Throw {A} message.

(** What the environment answers to a call into the browser engine that
    returns no value of interest. *)
Inductive outcome : Type :=
| Resolves
| Rejects (message : string).

(** ** The session registry ([src/session.ts]) *)
Module Registry.

(** [ConsoleEntry]; [timestamp] is the [Date] in milliseconds. *)
Record ConsoleEntry := {
  ce_level : string;
  ce_text : string;
  ce_url : option string;
  ce_line : option Z;
  ce_timestamp : Z;
}.

(** [NetworkEntry]. *)
Record NetworkEntry := {
  ne_method : string;
  ne_url : string;
  ne_status : option Z;
  ne_duration : option Z;
  ne_error : option string;
  ne_timestamp : Z;
}.

(** [SessionDiagnostics]: two arrays, oldest entry first. *)
Record SessionDiagnostics := {
  console : list ConsoleEntry;
  network : list NetworkEntry;
}.

#[global] Instance SessionDiagnostics_inhabited : Inhabited SessionDiagnostics :=
  populate {| console := []; network := [] |}.

(** [Session].  [page] names the Playwright page; [diagnostics] is a
    reference to the diagnostics object, which the page's observers share
    with the session (the object lives in [heap] below). *)
Record Session := {
  id : string;
  page : nat;
  createdAt : Z;
  diagnostics : nat;
}.

(** The [Browser] handle held in the module variable [browser];
    [isConnected] is the answer of [browser.isConnected()]. *)
Record Browser := {
  bid : nat;
  isConnected : bool;
}.

(** Values of the [pendingRequests] map. *)
Record PendingRequest := {
  start : Z;
  pr_method : string;
  pr_url : string;
}.

(** The module state of [session.ts] ([browser], [sessions],
    [pendingRequests], [headless]) together with the part of the outside
    world the module reaches through references: the diagnostics objects
    ([heap]), the [_requestId] property the request observer attaches to a
    request object ([requestIds], keyed by the object's identity), and the
    counters that give fresh identities to launched browsers and to pages. *)
Record State := {
  browser : option Browser;
  sessions : gmap string Session;
  pendingRequests : gmap string PendingRequest;
  headless : bool;
  heap : gmap nat SessionDiagnostics;
  requestIds : gmap nat string;
  launched : nat;
  pages : nat;
}.

Definition initial : State :=
  {| browser := None; sessions := ∅; pendingRequests := ∅; headless := true;
     heap := ∅; requestIds := ∅; launched := 0; pages := 0 |}.

Definition set_browser (b : option Browser) (st : State) : State :=
  {| browser := b; sessions := sessions st;
     pendingRequests := pendingRequests st; headless := headless st;
     heap := heap st; requestIds := requestIds st;
     launched := launched st; pages := pages st |}.

Definition set_sessions (m : gmap string Session) (st : State) : State :=
  {| browser := browser st; sessions := m;
     pendingRequests := pendingRequests st; headless := headless st;
     heap := heap st; requestIds := requestIds st;
     launched := launched st; pages := pages st |}.

Definition set_pendingRequests (m : gmap string PendingRequest) (st : State) : State :=
  {| browser := browser st; sessions := sessions st;
     pendingRequests := m; headless := headless st;
     heap := heap st; requestIds := requestIds st;
     launched := launched st; pages := pages st |}.

Definition set_heap (h : gmap nat SessionDiagnostics) (st : State) : State :=
  {| browser := browser st; sessions := sessions st;
     pendingRequests := pendingRequests st; headless := headless st;
     heap := h; requestIds := requestIds st;
     launched := launched st; pages := pages st |}.

Definition set_requestIds (m : gmap nat string) (st : State) : State :=
  {| browser := browser st; sessions := sessions st;
     pendingRequests := pendingRequests st; headless := headless st;
     heap := heap st; requestIds := m;
     launched := launched st; pages := pages st |}.

Definition set_launched (n : nat) (st : State) : State :=
  {| browser := browser st; sessions := sessions st;
     pendingRequests := pendingRequests st; headless := headless st;
     heap := heap st; requestIds := requestIds st;
     launched := n; pages := pages st |}.

Definition set_pages (n : nat) (st : State) : State :=
  {| browser := browser st; sessions := sessions st;
     pendingRequests := pendingRequests st; headless := headless st;
     heap := heap st; requestIds := requestIds st;
     launched := launched st; pages := n |}.

(** [setHeadless]. *)
Definition setHeadless (value : bool) (st : State) : State :=
  {| browser := browser st; sessions := sessions st;
     pendingRequests := pendingRequests st; headless := value;
     heap := heap st; requestIds := requestIds st;
     launched := launched st; pages := pages st |}.

(** [ensureBrowser]: launch when there is no handle or the handle is
    disconnected; [launch] is the environment's answer to
    [chromium.launch].  A rejected launch leaves [browser] as it was. *)
Definition ensureBrowser (launch : outcome) (st : State) : result Browser * State :=
  let relaunch :=
    match launch with
    | Resolves =>
        let b := {| bid := launched st; isConnected := true |} in
        (Ok b, set_browser (Some b) (set_launched (S (launched st)) st))
    | Rejects m => (Throw m, st)
    end in
  match browser st with
  | Some b => if isConnected b then (Ok b, st) else relaunch
  | None => relaunch
  end.

(** The diagnostics object behind a reference.  References never dangle in
    the source; the total lookup only makes the model a function. *)
Definition deref (st : State) (d : nat) : SessionDiagnostics := heap st !!! d.

Definition push_console (d : nat) (e : ConsoleEntry) (st : State) : State :=
  let o := deref st d in
  set_heap (<[d := {| console := Buffer.addToBuffer (console o) e;
                      network := network o |}]> (heap st)) st.

Definition push_network (d : nat) (e : NetworkEntry) (st : State) : State :=
  let o := deref st d in
  set_heap (<[d := {| console := console o;
                      network := Buffer.addToBuffer (network o) e |}]> (heap st)) st.

(** What the observers read off a console message. *)
Record ConsoleMessage := {
  msg_type : string;
  msg_text : string;
  location_url : string;
  location_lineNumber : Z;
}.

(** A Playwright request object: its identity, [url()] and [method()]. *)
Record Request := {
  req_obj : nat;
  req_url : string;
  req_method : string;
}.

(** The ['console'] observer; [now] is [new Date()].
    [location.url || undefined] and [location.lineNumber || undefined]. *)
Definition onConsole (d : nat) (msg : ConsoleMessage) (now : Z) (st : State) : State :=
  push_console d
    {| ce_level := msg_type msg;
       ce_text := msg_text msg;
       ce_url := if decide (location_url msg = ""%string) then None
                 else Some (location_url msg);
       ce_line := if decide (location_lineNumber msg = 0%Z) then None
                  else Some (location_lineNumber msg);
       ce_timestamp := now |} st.

(** The correlation id [`${req.url()}-${Date.now()}`]. *)
Definition requestId_of (url : string) (now : Z) : string :=
  (url +:+ "-" +:+ pretty now)%string.

(** The ['request'] observer.  [Date.now()] is read twice: [now_id] for the
    id and [now_start] for the [start] field. *)
Definition onRequest (req : Request) (now_id now_start : Z) (st : State) : State :=
  let requestId := requestId_of (req_url req) now_id in
  let st1 := set_pendingRequests
               (<[requestId := {| start := now_start;
                                  pr_method := req_method req;
                                  pr_url := req_url req |}]> (pendingRequests st)) st in
  set_requestIds (<[req_obj req := requestId]> (requestIds st1)) st1.

(** [requestId ? pendingRequests.get(requestId) : null]; a correlation id
    always contains ["-"], an empty id is kept falsy as in the source. *)
Definition lookup_pending (st : State) (requestId : option string) : option PendingRequest :=
  match requestId with
  | Some rid => if decide (rid = ""%string) then None else pendingRequests st !! rid
  | None => None
  end.

(** [if (requestId) pendingRequests.delete(requestId)]. *)
Definition delete_pending (requestId : option string) (st : State) : State :=
  match requestId with
  | Some rid => if decide (rid = ""%string) then st
                else set_pendingRequests (delete rid (pendingRequests st)) st
  | None => st
  end.

(** [pending ? Date.now() - pending.start : undefined]. *)
Definition duration_of (pending : option PendingRequest) (now : Z) : option Z :=
  match pending with
  | Some p => Some (now - start p)%Z
  | None => None
  end.

(** The ['response'] observer; [now] is [Date.now()], [stamp] is
    [new Date()]. *)
Definition onResponse (d : nat) (req : Request) (status : Z) (now stamp : Z)
    (st : State) : State :=
  let requestId := requestIds st !! req_obj req in
  let pending := lookup_pending st requestId in
  let st1 := push_network d
               {| ne_method := req_method req;
                  ne_url := req_url req;
                  ne_status := Some status;
                  ne_duration := duration_of pending now;
                  ne_error := None;
                  ne_timestamp := stamp |} st in
  delete_pending requestId st1.

(** The ['requestfailed'] observer; [failure] is
    [req.failure()?.errorText]. *)
Definition onRequestFailed (d : nat) (req : Request) (failure : option string)
    (now stamp : Z) (st : State) : State :=
  let requestId := requestIds st !! req_obj req in
  let pending := lookup_pending st requestId in
  let st1 := push_network d
               {| ne_method := req_method req;
                  ne_url := req_url req;
                  ne_status := None;
                  ne_duration := duration_of pending now;
                  ne_error := Some (or_default failure "Request failed");
                  ne_timestamp := stamp |} st in
  delete_pending requestId st1.

(** Events a page delivers to its observers, each with the clock readings
    the observer takes. *)
Inductive PageEvent : Type :=
| EvConsole (msg : ConsoleMessage) (now : Z)
| EvRequest (req : Request) (now_id now_start : Z)
| EvResponse (req : Request) (status : Z) (now stamp : Z)
| EvRequestFailed (req : Request) (failure : option string) (now stamp : Z).

(** The observers registered by [openSession] on the page whose
    diagnostics object is [d]. *)
Definition dispatch (d : nat) (ev : PageEvent) (st : State) : State :=
  match ev with
  | EvConsole msg now => onConsole d msg now st
  | EvRequest req now_id now_start => onRequest req now_id now_start st
  | EvResponse req status now stamp => onResponse d req status now stamp st
  | EvRequestFailed req failure now stamp => onRequestFailed d req failure now stamp st
  end.

Definition dispatchAll (d : nat) (evs : list PageEvent) (st : State) : State :=
  fold_left (fun s ev => dispatch d ev s) evs st.

(** What the environment does during one [openSession] call: the answers
    of the four awaited engine calls, the events the page emits while
    [page.goto] is pending, and the clock at [createdAt]. *)
Record OpenEnv := {
  launch : outcome;
  newPage : outcome;
  setViewportSize : outcome;
  goto_events : list PageEvent;
  goto : outcome;
  now : Z;
}.

Definition already_exists (sessionId : string) : string :=
  ("Session '" +:+ sessionId +:+ "' already exists")%string.

(** [openSession].  The page created by [b.newPage()] gets the next page
    number; its diagnostics object is allocated under the same number. *)
Definition openSession (env : OpenEnv) (sessionId url : string) (st : State)
    : result Session * State :=
  if decide (is_Some (sessions st !! sessionId)) then
    (Throw (already_exists sessionId), st)
  else
    match ensureBrowser (launch env) st with
    | (Throw m, st1) => (Throw m, st1)
    | (Ok b, st1) =>
        match newPage env with
        | Rejects m => (Throw m, st1)
        | Resolves =>
            let p := pages st1 in
            let st2 := set_pages (S p) st1 in
            match setViewportSize env with
            | Rejects m => (Throw m, st2)
            | Resolves =>
                let st3 :=
                  set_heap (<[p := {| console := []; network := [] |}]> (heap st2)) st2 in
                let st4 := dispatchAll p (goto_events env) st3 in
                match goto env with
                | Rejects m => (Throw m, st4)
                | Resolves =>
                    let session :=
                      {| id := sessionId; page := p;
                         createdAt := now env; diagnostics := p |} in
                    (Ok session,
                     set_sessions (<[sessionId := session]> (sessions st4)) st4)
                end
            end
        end
    end.

(** [getSession]. *)
Definition getSession (st : State) (sessionId : string) : option Session :=
  sessions st !! sessionId.

(** The answers of the engine calls awaited by [closeSession]. *)
Record CloseEnv := {
  page_close : outcome;
  browser_close : outcome;
}.

(** [closeSession]. *)
Definition closeSession (env : CloseEnv) (sessionId : string) (st : State)
    : result bool * State :=
  match sessions st !! sessionId with
  | None => (Ok false, st)
  | Some session =>
      match page_close env with
      | Rejects m => (Throw m, st)
      | Resolves =>
          let st1 := set_sessions (delete sessionId (sessions st)) st in
          match browser st1 with
          | Some b =>
              if decide (size (sessions st1) = 0) then
                match browser_close env with
                | Rejects m => (Throw m, st1)
                | Resolves => (Ok true, set_browser None st1)
                end
              else (Ok true, st1)
          | None => (Ok true, st1)
          end
      end
  end.

(** [listSessions]: the keys of the map.  (A JavaScript [Map] lists them in
    insertion order; the model lists them in the order of the finite map.) *)
Definition listSessions (st : State) : list string :=
  (map_to_list (sessions st)).*1.

(** [shutdown]; [pages_close] is the first rejection among the
    [page.close()] calls, if any. *)
Definition shutdown (pages_close browser_close_ : outcome) (st : State)
    : result unit * State :=
  match pages_close with
  | Rejects m => (Throw m, st)
  | Resolves =>
      let st1 := set_sessions ∅ st in
      match browser st1 with
      | Some b =>
          match browser_close_ with
          | Rejects m => (Throw m, st1)
          | Resolves => (Ok tt, set_browser None st1)
          end
      | None => (Ok tt, st1)
      end
  end.

(** One call of the registry's interface by a client. *)
Inductive Step : Type :=
| StepOpen (env : OpenEnv) (sessionId url : string)
| StepClose (env : CloseEnv) (sessionId : string).

Definition step (s : Step) (st : State) : State :=
  match s with
  | StepOpen env sessionId url => (openSession env sessionId url st).2
  | StepClose env sessionId => (closeSession env sessionId st).2
  end.

Definition run (steps : list Step) (st : State) : State :=
  fold_left (fun s x => step x s) steps st.

(** A step during which no engine call rejects. *)
Definition undisturbed (s : Step) : bool :=
  match s with
  | StepOpen env _ _ =>
      match launch env, newPage env, setViewportSize env, goto env with
      | Resolves, Resolves, Resolves, Resolves => true
      | _, _, _, _ => false
      end
  | StepClose env _ =>
      match page_close env, browser_close env with
      | Resolves, Resolves => true
      | _, _ => false
      end
  end.

(** *** Invariants of the registry *)

(** The browser handle is live exactly when a session is open, and a live
    handle is connected. *)
Definition engine_follows_sessions (st : State) : Prop :=
  (browser st = None <-> sessions st = ∅) /\
  (forall b, browser st = Some b -> isConnected b = true).

(** No pending request was started after time [t]. *)
Definition started_by (t : Z) (st : State) : Prop :=
  forall id p, pendingRequests st !! id = Some p -> (start p <= t)%Z.

(** Every diagnostics buffer respects the cap. *)
Definition buffers_bounded (st : State) : Prop :=
  forall d,
    length (console (deref st d)) <= Buffer.MAX_BUFFER_SIZE /\
    length (network (deref st d)) <= Buffer.MAX_BUFFER_SIZE.

End Registry.

(** ** The [diagnostics] tool handler *)
Module Diagnostics.
Import Registry.

(** [Array.prototype.slice(start)] with one argument: a negative [start]
    counts from the end and is clamped at the beginning, a non-negative one
    is clamped at the end.  [-0] is [0]. *)
Definition slice {A} (start : Z) (l : list A) : list A :=
  let len := Z.of_nat (length l) in
  let k := if (start <? 0)%Z then Z.max (len + start) 0 else Z.min start len in
  drop (Z.to_nat k) l.

(** [DiagnosticsParams].  [type] is kept a string, as it arrives; [limit]
    ranges over the integers. *)
Record DiagnosticsParams := {
  p_session : string;
  p_type : option string;
  p_level : option string;
  p_limit : option Z;
  p_clear : option bool;
}.

(** The two shapes of the handler's return value. *)
Inductive DiagnosticsResponse : Type :=
| NotFound (error : string) (availableSessions : list string)
| Found (session : string) (type : string)
        (console : option (list ConsoleEntry))
        (network : option (list NetworkEntry)).

Definition not_found (sessionId : string) : string :=
  ("Session '" +:+ sessionId +:+ "' not found")%string.

(** [type === 'console' || type === 'all'] and its network twin. *)
Definition selects_console (type : string) : bool :=
  bool_decide (type = "console"%string) || bool_decide (type = "all"%string).

Definition selects_network (type : string) : bool :=
  bool_decide (type = "network"%string) || bool_decide (type = "all"%string).

(** [if (level) consoleEntries = consoleEntries.filter(e => e.level === level)]. *)
Definition by_level (level : option string) (entries : list ConsoleEntry)
    : list ConsoleEntry :=
  match level with
  | Some l =>
      if decide (l = ""%string) then entries
      else filter (fun e => ce_level e = l) entries
  | None => entries
  end.

(** [session.diagnostics.console.length = 0]. *)
Definition clear_console (d : nat) (st : State) : State :=
  set_heap (<[d := {| Registry.console := [];
                      Registry.network := Registry.network (deref st d) |}]> (heap st)) st.

(** [session.diagnostics.network.length = 0]. *)
Definition clear_network (d : nat) (st : State) : State :=
  set_heap (<[d := {| Registry.console := Registry.console (deref st d);
                      Registry.network := [] |}]> (heap st)) st.

(** [handler]: the console block runs before the network block, and each
    block reads before it clears. *)
Definition handler (params : DiagnosticsParams) (st : State)
    : DiagnosticsResponse * State :=
  let sessionId := p_session params in
  let type := default "all"%string (p_type params) in
  let level := p_level params in
  let limit := default 50%Z (p_limit params) in
  let clear := default false (p_clear params) in
  match getSession st sessionId with
  | None => (NotFound (not_found sessionId) (listSessions st), st)
  | Some session =>
      let d := diagnostics session in
      let '(result_console, st1) :=
        if selects_console type then
          let consoleEntries := by_level level (Registry.console (deref st d)) in
          (Some (reverse (slice (- limit) consoleEntries)),
           if clear then clear_console d st else st)
        else (None, st) in
      let '(result_network, st2) :=
        if selects_network type then
          (Some (reverse (slice (- limit) (Registry.network (deref st1 d)))),
           if clear then clear_network d st1 else st1)
        else (None, st1) in
      (Found sessionId type result_console result_network, st2)
  end.

(** What a response holds for each kind. *)
Definition console_of (r : DiagnosticsResponse) : option (list ConsoleEntry) :=
  match r with
  | Found _ _ c _ => c
  | NotFound _ _ => None
  end.

Definition network_of (r : DiagnosticsResponse) : option (list NetworkEntry) :=
  match r with
  | Found _ _ _ n => n
  | NotFound _ _ => None
  end.

End Diagnostics.

(** ** Browser actions ([performAction]) *)
Module Actions.

(** The calls [performAction] makes on a Playwright page. *)
Inductive PageOp : Type :=
| PgGoto (url : string)
| PgGoBack
| PgGoForward
| PgTitle
| PgClick (selector : string)
| PgWaitForLoadState
| PgFill (selector value : string)
| PgSelectOption (selector value : string)
| PgCheck (selector : string)
| PgUncheck (selector : string)
| PgPress (selector key : string)
| PgKeyboardPress (key : string)
| PgScrollElement (selector direction : string)
| PgScrollWindow (direction : string)
| PgHighlight (selector : string).

(** [dir === 'up' ? -500 : 500], evaluated inside the page. *)
Definition scroll_amount (direction : string) : Z :=
  if decide (direction = "up"%string) then (-500)%Z else 500%Z.

(** The browser engine as the action sees it: [answer tr op] is what
    awaiting [op] yields after the calls [tr] (a resolved value, as a
    string, or a rejection), and [url_of tr] is what the synchronous
    [page.url()] returns after [tr]. *)
Record Engine := {
  answer : list PageOp -> PageOp -> result string;
  url_of : list PageOp -> string;
}.

(** A computation over the page: it extends the trace of calls made so far
    and resolves or rejects. *)
Definition Act (A : Type) : Type := list PageOp -> result A * list PageOp.

Definition ret {A} (a : A) : Act A := fun tr => (Ok a, tr).

Definition throw {A} (message : string) : Act A := fun tr => (Throw message, tr).

Definition bind {A B} (m : Act A) (k : A -> Act B) : Act B :=
  fun tr =>
    match m tr with
    | (Ok a, tr') => k a tr'
    | (Throw e, tr') => (Throw e, tr')
    end.

Notation "'await' x <- m ; k" := (bind m (fun x => k))
  (at level 10, x name, m at level 100, k at level 200).

(** [await page.op(...)]. *)
Definition call (E : Engine) (op : PageOp) : Act string :=
  fun tr => (answer E tr op, tr ++ [op]).

(** [promise.catch(() => {})]. *)
Definition swallow {A} (m : Act A) : Act unit :=
  fun tr => (Ok tt, (m tr).2).

(** [page.url()]. *)
Definition page_url (E : Engine) : Act string :=
  fun tr => (Ok (url_of E tr), tr).

(** [if (!x) throw new Error(message)]. *)
Definition required (x : option string) (message : string) : Act string :=
  match x with
  | Some s => if decide (s = ""%string) then throw message else ret s
  | None => throw message
  end.

(** [if (x === undefined) throw new Error(message)]. *)
Definition defined (x : option string) (message : string) : Act string :=
  match x with
  | Some s => ret s
  | None => throw message
  end.

(** [ActionType]. *)
Inductive ActionType : Type :=
| navigate | back | forward | click | fill | select
| check | uncheck | press | scroll | highlight.

(** The [case] labels of the [switch]; a string outside them reaches
    [default]. *)
Definition action_types : list (string * ActionType) :=
  [("navigate", navigate); ("back", back); ("forward", forward);
   ("click", click); ("fill", fill); ("select", select);
   ("check", check); ("uncheck", uncheck); ("press", press);
   ("scroll", scroll); ("highlight", highlight)]%string.

Definition case_of (type : string) : option ActionType :=
  snd <$> List.find (fun c => bool_decide (c.1 = type)) action_types.

(** [ActionParams]. *)
Record ActionParams := {
  a_type : string;
  a_selector : option string;
  a_value : option string;
  a_url : option string;
}.

(** [ActionResult]. *)
Record ActionResult := {
  success : bool;
  action : string;
  r_url : option string;
  r_title : option string;
  r_selector : option string;
  r_direction : option string;
  r_error : option string;
}.

Definition with_url (u : string) (r : ActionResult) : ActionResult :=
  {| success := success r; action := action r; r_url := Some u;
     r_title := r_title r; r_selector := r_selector r;
     r_direction := r_direction r; r_error := r_error r |}.

Definition with_title (t : string) (r : ActionResult) : ActionResult :=
  {| success := success r; action := action r; r_url := r_url r;
     r_title := Some t; r_selector := r_selector r;
     r_direction := r_direction r; r_error := r_error r |}.

Definition with_selector (s : string) (r : ActionResult) : ActionResult :=
  {| success := success r; action := action r; r_url := r_url r;
     r_title := r_title r; r_selector := Some s;
     r_direction := r_direction r; r_error := r_error r |}.

Definition with_direction (d : string) (r : ActionResult) : ActionResult :=
  {| success := success r; action := action r; r_url := r_url r;
     r_title := r_title r; r_selector := r_selector r;
     r_direction := Some d; r_error := r_error r |}.

Definition unknown_action (type : string) : string :=
  ("Unknown action type: " +:+ type)%string.

(** [performAction]. *)
Definition performAction (E : Engine) (params : ActionParams) : Act ActionResult :=
  let type := a_type params in
  let selector := a_selector params in
  let value := a_value params in
  let url := a_url params in
  let result :=
    {| success := true; action := type; r_url := None; r_title := None;
       r_selector := None; r_direction := None; r_error := None |} in
  match case_of type with
  | Some navigate =>
      await u <- required url "navigate requires url parameter";
      await _ <- call E (PgGoto u);
      await now_url <- page_url E;
      await title <- call E PgTitle;
      ret (with_title title (with_url now_url result))
  | Some back =>
      await _ <- call E PgGoBack;
      await now_url <- page_url E;
      await title <- call E PgTitle;
      ret (with_title title (with_url now_url result))
  | Some forward =>
      await _ <- call E PgGoForward;
      await now_url <- page_url E;
      await title <- call E PgTitle;
      ret (with_title title (with_url now_url result))
  | Some click =>
      await sel <- required selector "click requires selector parameter";
      await _ <- call E (PgClick sel);
      await _ <- swallow (call E PgWaitForLoadState);
      await now_url <- page_url E;
      ret (with_url now_url result)
  | Some fill =>
      await sel <- required selector "fill requires selector parameter";
      await v <- defined value "fill requires value parameter";
      await _ <- call E (PgFill sel v);
      ret (with_selector sel result)
  | Some select =>
      await sel <- required selector "select requires selector parameter";
      await v <- defined value "select requires value parameter";
      await _ <- call E (PgSelectOption sel v);
      ret (with_selector sel result)
  | Some check =>
      await sel <- required selector "check requires selector parameter";
      await _ <- call E (PgCheck sel);
      ret (with_selector sel result)
  | Some uncheck =>
      await sel <- required selector "uncheck requires selector parameter";
      await _ <- call E (PgUncheck sel);
      ret (with_selector sel result)
  | Some press =>
      if falsy selector && falsy value then
        throw "press requires selector or value (key) parameter"
      else
        await _ <- (if truthy selector
               then call E (PgPress (default ""%string selector)
                                    (or_default value "Enter"))
               else call E (PgKeyboardPress (default ""%string value)));
        await _ <- swallow (call E PgWaitForLoadState);
        await now_url <- page_url E;
        ret (with_url now_url result)
  | Some scroll =>
      let direction := or_default value "down" in
      await _ <- (if truthy selector
             then call E (PgScrollElement (default ""%string selector) direction)
             else call E (PgScrollWindow direction));
      ret (with_direction direction result)
  | Some highlight =>
      await sel <- required selector "highlight requires selector parameter";
      await _ <- call E (PgHighlight sel);
      ret (with_selector sel result)
  | None => throw (unknown_action type)
  end.

(** The [case] label of an action type. *)
Definition name_of (a : ActionType) : string :=
  match a with
  | navigate => "navigate" | back => "back" | forward => "forward"
  | click => "click" | fill => "fill" | select => "select"
  | check => "check" | uncheck => "uncheck" | press => "press"
  | scroll => "scroll" | highlight => "highlight"
  end.

End Actions.

(** ** The sequence runner *)
Module Sequence.
Import Actions.

Section Runner.

(** The engine behind the session's page. *)
Variable E : Engine.

(** Modelled from the spec: the assertion evaluator ([assertions.ts] is not
    among the sources).  Given a declared condition and the page, it returns
    a boolean or throws; it only reads the page. *)
Variable Condition : Type.
Variable evaluate : Condition -> list PageOp -> result bool.

(** Modelled from the spec: a step is either an action invocation or an
    assertion invocation ([run-sequence.ts] is not among the sources). *)
Inductive SequenceStep : Type :=
| ActionStep (params : ActionParams)
| AssertStep (condition : Condition).

Inductive StepKind : Type := KAction | KAssert.

(** Modelled from the spec: the step-outcome event (step index, kind,
    success flag, captured detail). *)
Record StepEvent := {
  index : nat;
  kind : StepKind;
  ok : bool;
  detail : option string;
}.

(** Modelled from the spec: the runner's states,
    [NotStarted -> Running -> {Completed, Aborted}]. *)
Inductive RunState : Type := NotStarted | Running | Completed | Aborted.

(** Modelled from the spec: the execution record (overall success flag,
    count of steps completed, total step count, the per-step events, and a
    snapshot of the final session state: the current URL). *)
Record SequenceResult := {
  seq_success : bool;
  completed : nat;
  total : nat;
  events : list StepEvent;
  final_url : string;
}.

(** Modelled from the spec: one step.  An action is delegated to
    [performAction], and a thrown error fails the step; an assertion is
    delegated to the evaluator, and a false or erroring assertion fails the
    step.  The answer is the success flag, the captured detail and the page
    trace after the step. *)
Definition runStep (s : SequenceStep) (tr : list PageOp)
    : bool * option string * list PageOp :=
  match s with
  | ActionStep params =>
      match performAction E params tr with
      | (Ok _, tr') => (true, None, tr')
      | (Throw m, tr') => (false, Some m, tr')
      end
  | AssertStep c =>
      match evaluate c tr with
      | Ok true => (true, None, tr)
      | Ok false => (false, None, tr)
      | Throw m => (false, Some m, tr)
      end
  end.

(** The kind recorded in a step's event. *)
Definition kind_of (s : SequenceStep) : StepKind :=
  match s with
  | ActionStep _ => KAction
  | AssertStep _ => KAssert
  end.

(** Modelled from the spec: the runner's loop from step [i] on, in state
    [Running].  Steps run in declared order; every attempted step records an
    event; the first failure moves to [Aborted] and stops; running out of
    steps moves to [Completed]. *)
Fixpoint loop (i : nat) (steps : list SequenceStep) (evs : list StepEvent)
    (tr : list PageOp) : RunState * list StepEvent * list PageOp :=
  match steps with
  | [] => (Completed, evs, tr)
  | s :: rest =>
      let '(okay, info, tr') := runStep s tr in
      let evs' := evs ++ [{| index := i; kind := kind_of s;
                             ok := okay; detail := info |}] in
      if okay then loop (S i) rest evs' tr' else (Aborted, evs', tr')
  end.

(** Modelled from the spec: a run.  [completed] counts the steps attempted,
    the failing one included; the URL snapshot is taken after the last
    attempted step.  A run returns a record; it has no way to throw. *)
Definition runSequence (steps : list SequenceStep) (tr : list PageOp)
    : SequenceResult * list PageOp :=
  let '(final, evs, tr') := loop 0 steps [] tr in
  ({| seq_success := match final with Completed => true | _ => false end;
      completed := length evs;
      total := length steps;
      events := evs;
      final_url := url_of E tr' |}, tr').

(** Executing steps one after the other, whatever their outcome: the
    reference against which "step k is the first to fail" is read. *)
Definition succeeds (s : SequenceStep) (tr : list PageOp) : bool :=
  (runStep s tr).1.1.

Definition trace_after (steps : list SequenceStep) (tr : list PageOp) : list PageOp :=
  fold_left (fun t s => (runStep s t).2) steps tr.

Fixpoint all_succeed (steps : list SequenceStep) (tr : list PageOp) : bool :=
  match steps with
  | [] => true
  | s :: rest => succeeds s tr && all_succeed rest (runStep s tr).2
  end.

(** The event of step [s], attempted as step [i] on the page [tr]. *)
Definition event_of (i : nat) (s : SequenceStep) (tr : list PageOp)
    : StepEvent :=
  {| index := i; kind := kind_of s;
     ok := (runStep s tr).1.1;
     detail := (runStep s tr).1.2 |}.

(** The events of steps that are attempted one after the other. *)
Fixpoint events_from (i : nat) (steps : list SequenceStep) (tr : list PageOp)
    : list StepEvent :=
  match steps with
  | [] => []
  | s :: rest =>
      event_of i s tr :: events_from (S i) rest (runStep s tr).2
  end.

End Runner.

Arguments ActionStep {Condition} params.
Arguments AssertStep {Condition} condition.
Arguments kind_of {Condition} s.
Arguments runStep E {Condition} evaluate s tr.
Arguments loop E {Condition} evaluate i steps evs tr.
Arguments runSequence E {Condition} evaluate steps tr.
Arguments succeeds E {Condition} evaluate s tr.
Arguments trace_after E {Condition} evaluate steps tr.
Arguments all_succeed E {Condition} evaluate steps tr.
Arguments event_of E {Condition} evaluate i s tr.
Arguments events_from E {Condition} evaluate i steps tr.

End Sequence.

(** ** The [describe] tool ([src/tools/describe.ts], [src/vision/index.ts]) *)
Module Describe.
Import Registry.

(** The two environment variables the vision wrappers read. *)
Record ProcessEnv := {
  OPENAI_API_KEY : option string;
  ANTHROPIC_API_KEY : option string;
}.

Inductive VisionProvider : Type := openai | anthropic.

(** [openai.isConfigured]: [!!process.env.OPENAI_API_KEY]. *)
Definition openai_isConfigured (env : ProcessEnv) : bool :=
  truthy (OPENAI_API_KEY env).

(** [anthropic.isConfigured]: [!!process.env.ANTHROPIC_API_KEY]. *)
Definition anthropic_isConfigured (env : ProcessEnv) : bool :=
  truthy (ANTHROPIC_API_KEY env).

(** [getProvider]: OpenAI is preferred when both are configured. *)
Definition getProvider (env : ProcessEnv) : option VisionProvider :=
  if openai_isConfigured env then Some openai
  else if anthropic_isConfigured env then Some anthropic
  else None.

(** [isConfigured]: [getProvider() !== null]. *)
Definition isConfigured (env : ProcessEnv) : bool :=
  match getProvider env with
  | Some _ => true
  | None => false
  end.

Definition DEFAULT_PROMPT : string :=
  "Describe this screenshot of a web page. Include:
- Main content and purpose of the page
- Key UI elements (buttons, forms, navigation)
- Any error messages or alerts visible
- Current state (loading, loaded, error)
Keep the description concise but comprehensive.".

(** [buildPrompt]. *)
Definition buildPrompt (userPrompt : option string) : string :=
  if falsy userPrompt then DEFAULT_PROMPT
  else ("Looking at this screenshot of a web page: "
        +:+ default ""%string userPrompt)%string.

(** [VisionResult], [DescribeResult] and the not-found object share their
    fields; a field that an object literal leaves out is [None]. *)
Record Response := {
  success : option bool;
  description : option string;
  provider : option VisionProvider;
  error : option string;
  availableSessions : option (list string);
}.

Definition not_configured : string :=
  "Vision not configured. Set OPENAI_API_KEY or ANTHROPIC_API_KEY environment variable.".

(** The remote vision service: what a provider's [describeImage] yields
    for an image and a prompt. *)
Definition VisionApi : Type := VisionProvider -> string -> string -> result string.

(** [describeImage] of [vision/index.ts]. *)
Definition describeImage (env : ProcessEnv) (api : VisionApi)
    (base64Image : string) (userPrompt : option string) : Response :=
  match getProvider env with
  | None =>
      {| success := Some false; description := None; provider := None;
         error := Some not_configured; availableSessions := None |}
  | Some p =>
      let prompt := buildPrompt userPrompt in
      match api p base64Image prompt with
      | Ok text =>
          {| success := Some true; description := Some text;
             provider := Some p; error := None; availableSessions := None |}
      | Throw message =>
          {| success := Some false; description := None; provider := Some p;
             error := Some ("Vision API error: " +:+ message)%string;
             availableSessions := None |}
      end
  end.

(** What the page answers to the screenshot calls: [locator.count()],
    [element.screenshot()] and [page.screenshot({fullPage})], the image
    already in base64. *)
Record Camera := {
  count : nat -> string -> result nat;
  element_screenshot : nat -> string -> result string;
  page_screenshot : nat -> bool -> result string;
}.

(** [DescribeParams]. *)
Record DescribeParams := {
  p_session : string;
  p_selector : option string;
  p_fullPage : option bool;
  p_prompt : option string;
}.

Definition failure (message : string) : Response :=
  {| success := Some false; description := None; provider := None;
     error := Some message; availableSessions := None |}.

(** [handler] of [describe.ts]: configuration is checked first, then the
    session is looked up; everything after that is inside [try]. *)
Definition handler (env : ProcessEnv) (cam : Camera) (api : VisionApi)
    (params : DescribeParams) (st : State) : Response :=
  let sessionId := p_session params in
  let selector := p_selector params in
  let fullPage := default false (p_fullPage params) in
  let prompt := p_prompt params in
  if negb (isConfigured env) then failure not_configured
  else
    match getSession st sessionId with
    | None =>
        {| success := None; description := None; provider := None;
           error := Some (Diagnostics.not_found sessionId);
           availableSessions := Some (listSessions st) |}
    | Some session =>
        let shot :=
          if truthy selector then
            let sel := default ""%string selector in
            match count cam (page session) sel with
            | Throw m => inr (failure m)
            | Ok 0 => inr (failure ("Element not found: " +:+ sel)%string)
            | Ok (S _) =>
                match element_screenshot cam (page session) sel with
                | Throw m => inr (failure m)
                | Ok buffer => inl buffer
                end
            end
          else
            match page_screenshot cam (page session) fullPage with
            | Throw m => inr (failure m)
            | Ok buffer => inl buffer
            end in
        match shot with
        | inl base64Image => describeImage env api base64Image prompt
        | inr response => response
        end
    end.

End Describe.

(** ** Concrete inputs used to exercise the model *)
Module Examples.
Import Registry.

(** An [openSession] call during which every engine call resolves and the
    page emits [events] while it navigates. *)
Definition quiet_open (events : list PageEvent) : OpenEnv :=
  {| launch := Resolves; newPage := Resolves; setViewportSize := Resolves;
     goto_events := events; goto := Resolves; now := 1000 |}.

(** An [openSession] call whose [page.goto] rejects. *)
Definition failed_goto : OpenEnv :=
  {| launch := Resolves; newPage := Resolves; setViewportSize := Resolves;
     goto_events := []; goto := Rejects "net::ERR_NAME_NOT_RESOLVED"; now := 1000 |}.

Definition quiet_close : CloseEnv :=
  {| page_close := Resolves; browser_close := Resolves |}.

Definition log_message : ConsoleMessage :=
  {| msg_type := "log"; msg_text := "ready";
     location_url := "http://localhost/app.js"; location_lineNumber := 12 |}.

Definition log_entry : ConsoleEntry :=
  {| ce_level := "log"; ce_text := "ready";
     ce_url := Some "http://localhost/app.js"%string; ce_line := Some 12%Z;
     ce_timestamp := 1001 |}.

Definition get_index : Request :=
  {| req_obj := 0; req_url := "http://localhost/"; req_method := "GET" |}.

Definition get_script : Request :=
  {| req_obj := 1; req_url := "http://localhost/app.js"; req_method := "GET" |}.

(** The registry after [openSession("main", "http://localhost/")] from the
    initial state: the page logged one message, the document request was
    answered after 7 ms, and the script request is still pending. *)
Definition one_session : State :=
  (openSession
     (quiet_open [EvRequest get_index 1000 1000;
                  EvResponse get_index 200 1007 1007;
                  EvRequest get_script 1008 1008;
                  EvConsole log_message 1001])
     "main" "http://localhost/" initial).2.

(** Two requests for the same URL observed in the same millisecond: they
    share one correlation id. *)
Definition poll_a : Request :=
  {| req_obj := 7; req_url := "http://localhost/poll"; req_method := "GET" |}.

Definition poll_b : Request :=
  {| req_obj := 8; req_url := "http://localhost/poll"; req_method := "GET" |}.

Definition colliding : State :=
  (openSession
     (quiet_open [EvRequest poll_a 50 50;
                  EvRequest poll_b 50 50;
                  EvResponse poll_a 200 60 60;
                  EvResponse poll_b 200 61 61])
     "main" "http://localhost/" initial).2.

(** [{session: 'main', type, level, limit, clear}]. *)
Definition read (type : string) (level : option string) (limit : option Z)
    (clear : option bool) : Diagnostics.DiagnosticsParams :=
  {| Diagnostics.p_session := "main"; Diagnostics.p_type := Some type;
     Diagnostics.p_level := level; Diagnostics.p_limit := limit;
     Diagnostics.p_clear := clear |}.

(** An engine on which every call resolves; the page is at the last URL
    it was sent to. *)
Definition obliging : Actions.Engine :=
  {| Actions.answer := fun _ op =>
       match op with
       | Actions.PgTitle => Ok "Example Domain"%string
       | _ => Ok ""%string
       end;
     Actions.url_of := fun tr =>
       default "about:blank"%string
         (last (omap (fun op => match op with
                                | Actions.PgGoto u => Some u
                                | _ => None
                                end) tr)) |}.

(** An engine on which clicking rejects (no element matches) and every
    other call resolves. *)
Definition no_button : Actions.Engine :=
  {| Actions.answer := fun _ op =>
       match op with
       | Actions.PgClick _ => Throw "Timeout 30000ms exceeded."%string
       | _ => Ok ""%string
       end;
     Actions.url_of := fun _ => "http://localhost/"%string |}.

(** [{type, selector, value}] with no [url]. *)
Definition act (type : string) (selector value : option string)
    : Actions.ActionParams :=
  {| Actions.a_type := type; Actions.a_selector := selector;
     Actions.a_value := value; Actions.a_url := None |}.

(** An assertion evaluator for conditions that are plain booleans. *)
Definition verdict (c : bool) (tr : list Actions.PageOp) : result bool := Ok c.

(** Five steps; the second clicks a button that no element matches. *)
Definition five_steps : list (Sequence.SequenceStep bool) :=
  [Sequence.ActionStep (act "fill" (Some "#q"%string) (Some "rocq"%string));
   Sequence.ActionStep (act "click" (Some "#go"%string) None);
   Sequence.ActionStep (act "press" None (Some "Enter"%string));
   Sequence.AssertStep true;
   Sequence.ActionStep (act "scroll" None None)].

(** No vision provider is configured. *)
Definition no_keys : Describe.ProcessEnv :=
  {| Describe.OPENAI_API_KEY := None; Describe.ANTHROPIC_API_KEY := None |}.

Definition blind : Describe.Camera :=
  {| Describe.count := fun _ _ => Ok 0;
     Describe.element_screenshot := fun _ _ => Throw "no element"%string;
     Describe.page_screenshot := fun _ _ => Ok "iVBORw0KGgo="%string |}.

Definition mute : Describe.VisionApi := fun _ _ _ => Throw "unreachable"%string.

Definition describe_ghost : Describe.DescribeParams :=
  {| Describe.p_session := "ghost"; Describe.p_selector := None;
     Describe.p_fullPage := None; Describe.p_prompt := None |}.

End Examples.

(** ** The parameter contract of the actions

    The words of section 4.3 of the specification, as a decision on the
    parameters: which invocations lack a parameter their action type
    requires, and the error each of them is answered with. *)
Module Contract.
Import Actions.

Definition absent (x : option string) : bool :=
  match x with
  | None => true
  | Some _ => false
  end.

(** [url] for navigate; [selector] for click, fill, select, check, uncheck
    and highlight; [value] for fill and select; both [selector] and [value]
    for press; and every type that is not an action type. *)
Definition lacks_required (p : ActionParams) : bool :=
  match case_of (a_type p) with
  | Some navigate => absent (a_url p)
  | Some click | Some check | Some uncheck | Some highlight =>
      absent (a_selector p)
  | Some fill | Some select => absent (a_selector p) || absent (a_value p)
  | Some press => absent (a_selector p) && absent (a_value p)
  | Some back | Some forward | Some scroll => false
  | None => true
  end.

(** The message that names the action type and the parameter it lacks
    (for fill and select the selector is looked at first, and an empty
    selector counts as none). *)
Definition usage_error (p : ActionParams) : string :=
  match case_of (a_type p) with
  | Some navigate => a_type p +:+ " requires url parameter"
  | Some press => a_type p +:+ " requires selector or value (key) parameter"
  | Some fill | Some select =>
      if falsy (a_selector p)
      then a_type p +:+ " requires selector parameter"
      else a_type p +:+ " requires value parameter"
  | Some _ => a_type p +:+ " requires selector parameter"
  | None => "Unknown action type: " +:+ a_type p
  end.

(** The result of a press action that went through: only [url] is set. *)
Definition pressed (type url : string) : ActionResult :=
  {| success := true; action := type; r_url := Some url; r_title := None;
     r_selector := None; r_direction := None; r_error := None |}.

End Contract.

(** ** The vision providers ([src/vision/openai.ts], [src/vision/anthropic.ts]) *)
Module Providers.
Import Describe.

(** The SDK client: only the key it was built with matters here. *)
Record Client := { apiKey : string }.

(** [getClient], the same in both wrappers: the module variable [client]
    is returned when set; otherwise a client is built from the environment
    variable [key], stored and returned, unless the key is missing or
    empty.  The answer is the returned client and the module variable
    afterwards. *)
Definition getClient (key : option string) (client : option Client)
    : option Client * option Client :=
  match client with
  | Some c => (Some c, Some c)
  | None =>
      if falsy key then (None, None)
      else
        let c := {| apiKey := default ""%string key |} in
        (Some c, Some c)
  end.

(** The body of [openai.chat.completions.create]. *)
Record ChatRequest := {
  chat_model : string;
  chat_text : string;
  chat_image_url : string;
  chat_detail : string;
  chat_max_tokens : Z;
}.

Definition openai_request (base64Image prompt : string) : ChatRequest :=
  {| chat_model := "gpt-4o";
     chat_text := prompt;
     chat_image_url := ("data:image/png;base64," +:+ base64Image)%string;
     chat_detail := "high";
     chat_max_tokens := 1000 |}.

(** What the OpenAI service answers: a rejection, or the choices, each
    with the [content] of its message when there is one. *)
Definition OpenAIRemote : Type := Client -> ChatRequest -> result (list (option string)).

(** [response.choices[0]?.message?.content], then [if (!content) throw]. *)
Definition openai_content (response : result (list (option string))) : result string :=
  match response with
  | Throw m => Throw m
  | Ok choices =>
      match head choices with
      | Some (Some content) =>
          if decide (content = ""%string) then Throw "No response from OpenAI"
          else Ok content
      | _ => Throw "No response from OpenAI"
      end
  end.

(** [describeImage] of [openai.ts]; the second component is the module
    variable [client] afterwards. *)
Definition openai_describeImage (remote : OpenAIRemote) (env : ProcessEnv)
    (client : option Client) (base64Image prompt : string)
    : result string * option Client :=
  match getClient (OPENAI_API_KEY env) client with
  | (None, client') => (Throw "OpenAI not configured", client')
  | (Some c, client') =>
      (openai_content (remote c (openai_request base64Image prompt)), client')
  end.

(** The body of [anthropic.messages.create]. *)
Record MessageRequest := {
  msg_model : string;
  msg_max_tokens : Z;
  msg_media_type : string;
  msg_data : string;
  msg_prompt : string;
}.

Definition anthropic_request (base64Image prompt : string) : MessageRequest :=
  {| msg_model := "claude-sonnet-4-20250514";
     msg_max_tokens := 1000;
     msg_media_type := "image/png";
     msg_data := base64Image;
     msg_prompt := prompt |}.

(** A block of [response.content]. *)
Record ContentBlock := {
  block_type : string;
  block_text : string;
}.

Definition AnthropicRemote : Type :=
  Client -> MessageRequest -> result (list ContentBlock).

(** [response.content.find(block => block.type === 'text')], then the
    block's [text], or the error when there is no such block. *)
Definition anthropic_content (response : result (list ContentBlock)) : result string :=
  match response with
  | Throw m => Throw m
  | Ok content =>
      match List.find (fun b => bool_decide (block_type b = "text"%string)) content with
      | Some textBlock => Ok (block_text textBlock)
      | None => Throw "No response from Anthropic"
      end
  end.

(** [describeImage] of [anthropic.ts]. *)
Definition anthropic_describeImage (remote : AnthropicRemote) (env : ProcessEnv)
    (client : option Client) (base64Image prompt : string)
    : result string * option Client :=
  match getClient (ANTHROPIC_API_KEY env) client with
  | (None, client') => (Throw "Anthropic not configured", client')
  | (Some c, client') =>
      (anthropic_content (remote c (anthropic_request base64Image prompt)), client')
  end.

(** The provider calls as [describeImage] of [vision/index.ts] makes them,
    with the two module variables at the time of the call. *)
Definition api (openai_remote : OpenAIRemote) (anthropic_remote : AnthropicRemote)
    (env : ProcessEnv) (openai_client anthropic_client : option Client)
    : VisionApi :=
  fun p base64Image prompt =>
    match p with
    | openai =>
        (openai_describeImage openai_remote env openai_client base64Image prompt).1
    | anthropic =>
        (anthropic_describeImage anthropic_remote env anthropic_client
           base64Image prompt).1
    end.

End Providers.

(** ** The calls that reach the registry

    The tool layer and the browser drive the module state through
    [openSession], [closeSession], [shutdown], the [diagnostics] handler,
    and the observers of the pages that have them (the pages whose
    diagnostics object has been allocated). *)
Module Server.
Import Registry.

Inductive Call : Type :=
| CallOpen (env : OpenEnv) (sessionId url : string)
| CallClose (env : CloseEnv) (sessionId : string)
| CallShutdown (pages_close browser_close : outcome)
| CallDiagnostics (params : Diagnostics.DiagnosticsParams)
| CallEvent (d : nat) (ev : PageEvent).

Definition perform (c : Call) (st : State) : State :=
  match c with
  | CallOpen env sessionId url => (openSession env sessionId url st).2
  | CallClose env sessionId => (closeSession env sessionId st).2
  | CallShutdown pages_close browser_close =>
      (shutdown pages_close browser_close st).2
  | CallDiagnostics params => (Diagnostics.handler params st).2
  | CallEvent d ev =>
      if decide (is_Some (heap st !! d)) then dispatch d ev st else st
  end.

Definition performAll (calls : list Call) (st : State) : State :=
  fold_left (fun s c => perform c s) calls st.

(** The states the module can be in. *)
Definition reachable (st : State) : Prop :=
  exists calls, st = performAll calls initial.

(** The state in which [openSession] stores the session: the browser is
    ensured, the page and its diagnostics object are allocated, and the
    events of the navigation have been observed. *)
Definition navigated (env : OpenEnv) (st : State) : State :=
  dispatchAll (pages st) (goto_events env)
    (set_heap (<[pages st := {| console := []; network := [] |}]>
                 (heap (ensureBrowser Resolves st).2))
       (set_pages (S (pages st)) (ensureBrowser Resolves st).2)).

(** Sessions are stored under their own name, each with a page and a
    diagnostics object of its own. *)
Definition sessions_wf (st : State) : Prop :=
  (forall k s, sessions st !! k = Some s ->
     id s = k /\ diagnostics s = page s /\ page s < pages st /\
     is_Some (heap st !! page s)) /\
  (forall k1 k2 s1 s2,
     sessions st !! k1 = Some s1 -> sessions st !! k2 = Some s2 ->
     page s1 = page s2 -> k1 = k2) /\
  (forall d, is_Some (heap st !! d) -> d < pages st).

(** A recorded network entry has a status or an error, never both and
    never neither. *)
Definition one_outcome (e : NetworkEntry) : Prop :=
  (is_Some (ne_status e) /\ ne_error e = None) \/
  (ne_status e = None /\ is_Some (ne_error e)).

Definition outcomes_exclusive (st : State) : Prop :=
  forall d e, e ∈ network (deref st d) -> one_outcome e.

End Server.

(** ** The first page call of an action *)
Module Effects.
Import Actions.

(** [Some s] when [s] is a present, non-empty string. *)
Definition given (x : option string) : option string :=
  match x with
  | Some s => if decide (s = ""%string) then None else Some s
  | None => None
  end.

(** The page call an action starts with, when its parameters pass the
    checks of its [case]. *)
Definition first_call (p : ActionParams) : option PageOp :=
  match case_of (a_type p) with
  | Some navigate => PgGoto <$> given (a_url p)
  | Some back => Some PgGoBack
  | Some forward => Some PgGoForward
  | Some click => PgClick <$> given (a_selector p)
  | Some fill =>
      sel ← given (a_selector p); v ← a_value p; Some (PgFill sel v)
  | Some select =>
      sel ← given (a_selector p); v ← a_value p; Some (PgSelectOption sel v)
  | Some check => PgCheck <$> given (a_selector p)
  | Some uncheck => PgUncheck <$> given (a_selector p)
  | Some press =>
      match given (a_selector p), given (a_value p) with
      | Some sel, _ => Some (PgPress sel (or_default (a_value p) "Enter"))
      | None, Some key => Some (PgKeyboardPress key)
      | None, None => None
      end
  | Some scroll =>
      match given (a_selector p) with
      | Some sel => Some (PgScrollElement sel (or_default (a_value p) "down"))
      | None => Some (PgScrollWindow (or_default (a_value p) "down"))
      end
  | Some highlight => PgHighlight <$> given (a_selector p)
  | None => None
  end.

End Effects.

(** ** Runs of the module used to exercise the further properties *)
Module Scenarios.
Import Registry Server.

(** Two sessions; the page of the second one then fails to load a
    script. *)
Definition two_sessions : list Call :=
  [CallOpen (Examples.quiet_open [EvRequest Examples.get_index 1000 1000;
                                  EvResponse Examples.get_index 200 1007 1007])
     "main" "http://localhost/";
   CallOpen (Examples.quiet_open []) "admin" "http://localhost/admin";
   CallEvent 1 (EvRequest Examples.get_script 1008 1008);
   CallEvent 1 (EvRequestFailed Examples.get_script
                  (Some "net::ERR_FAILED"%string) 1010 1011)].

Definition main_session : Session :=
  {| id := "main"; page := 0; createdAt := 1000; diagnostics := 0 |}.

Definition admin_session : Session :=
  {| id := "admin"; page := 1; createdAt := 1000; diagnostics := 1 |}.

Definition failed_script : NetworkEntry :=
  {| ne_method := "GET"; ne_url := "http://localhost/app.js";
     ne_status := None; ne_duration := Some 2%Z;
     ne_error := Some "net::ERR_FAILED"%string; ne_timestamp := 1011 |}.

(** Only the OpenAI key is set. *)
Definition openai_only : Describe.ProcessEnv :=
  {| Describe.OPENAI_API_KEY := Some "sk-test"%string;
     Describe.ANTHROPIC_API_KEY := None |}.

(** A service that answers with one choice naming the key it was called
    with. *)
Definition echo_key : Providers.OpenAIRemote :=
  fun c _ => Ok [Some ("seen by " +:+ Providers.apiKey c)%string].

Definition silent : Providers.AnthropicRemote := fun _ _ => Ok [].

(** A response that opens with a tool-use block. *)
Definition tool_then_text : list Providers.ContentBlock :=
  [{| Providers.block_type := "tool_use"; Providers.block_text := "" |};
   {| Providers.block_type := "text"; Providers.block_text := "A login form." |};
   {| Providers.block_type := "text"; Providers.block_text := "ignored" |}].


(** A page on which one element matches every selector; the three
    screenshots differ. *)
Definition sighted : Describe.Camera :=
  {| Describe.count := fun _ _ => Ok 1;
     Describe.element_screenshot := fun _ _ => Ok "ZWxlbWVudA=="%string;
     Describe.page_screenshot := fun _ fullPage =>
       if fullPage then Ok "ZnVsbA=="%string else Ok "dmlldw=="%string |}.

(** A vision service that describes an image by naming it. *)
Definition names_image : Describe.VisionApi :=
  fun _ base64Image _ => Ok ("image " +:+ base64Image)%string.

(** [{session: 'main', selector: '#hero', fullPage}]. *)
Definition describe_hero (fullPage : option bool) : Describe.DescribeParams :=
  {| Describe.p_session := "main"; Describe.p_selector := Some "#hero"%string;
     Describe.p_fullPage := fullPage; Describe.p_prompt := None |}.

End Scenarios.

(** * Properties *)

(** ** The diagnostics buffer *)
Section BufferFacts.
Import Buffer.
Context {T : Type}.
Implicit Types (b l es : list T) (e : T).

Lemma tail_drop l : tail l = drop 1 l.
Proof. by destruct l. Qed.

Lemma length_lastn n l : length (lastn n l) = Nat.min n (length l).
Proof. unfold lastn. rewrite length_drop. lia. Qed.

Lemma lastn_all n l : length l <= n -> lastn n l = l.
Proof. intros H. unfold lastn. by replace (length l - n) with 0 by lia. Qed.

Lemma lastn_app_lastn n l es : lastn n (lastn n l ++ es) = lastn n (l ++ es).
Proof.
  destruct (decide (length l <= n)) as [Hle | Hgt].
  - by rewrite (lastn_all n l).
  - unfold lastn at 1 3. rewrite !length_app, length_lastn.
    unfold lastn.
    replace (n `min` length l + length es - n) with (length es) by lia.
    replace (length l + length es - n) with ((length l - n) + length es) by lia.
    rewrite <- drop_drop. f_equal.
    rewrite drop_app_le by lia. done.
Qed.

Lemma addToBuffer_lastn b e :
  length b <= MAX_BUFFER_SIZE ->
  addToBuffer b e = lastn MAX_BUFFER_SIZE (b ++ [e]).
Proof.
  intros Hb. unfold addToBuffer, lastn. cbv zeta.
  rewrite length_app. cbn [length].
  destruct (Nat.ltb_spec MAX_BUFFER_SIZE (length b + 1)) as [Hlt | Hge].
  - rewrite tail_drop. f_equal. lia.
  - by replace (length b + 1 - MAX_BUFFER_SIZE) with 0 by lia.
Qed.

Lemma addToBuffer_length b e :
  length b <= MAX_BUFFER_SIZE -> length (addToBuffer b e) <= MAX_BUFFER_SIZE.
Proof.
  intros Hb. rewrite addToBuffer_lastn, length_lastn by done. lia.
Qed.

Lemma addAll_snoc b es e : addAll b (es ++ [e]) = addToBuffer (addAll b es) e.
Proof. unfold addAll. by rewrite fold_left_app. Qed.

Lemma addAll_lastn b es :
  length b <= MAX_BUFFER_SIZE ->
  addAll b es = lastn MAX_BUFFER_SIZE (b ++ es).
Proof.
  intros Hb. induction es as [| e es IH] using rev_ind.
  - rewrite app_nil_r. cbn. by rewrite lastn_all.
  - rewrite addAll_snoc, IH.
    rewrite addToBuffer_lastn by (rewrite length_lastn; lia).
    by rewrite lastn_app_lastn, app_assoc.
Qed.

End BufferFacts.

(** C1.  Whatever entries have been inserted into a buffer that started
    empty, inserting one more leaves at most [MAX_BUFFER_SIZE] = 100 entries;
    the buffer then holds exactly the last 100 of all entries inserted, in
    arrival order; an insertion into a full buffer drops the oldest entry
    (the head) and nothing else, and an insertion into a buffer that is not
    full drops nothing. *)
Theorem addToBuffer_keeps_most_recent :
  forall (T : Type) (inserted : list T) (e : T),
    length (Buffer.addToBuffer (Buffer.addAll [] inserted) e) <= 100 /\
    Buffer.addToBuffer (Buffer.addAll [] inserted) e
      = Buffer.lastn 100 (inserted ++ [e]) /\
    (length (Buffer.addAll [] inserted) = 100 ->
       Buffer.addToBuffer (Buffer.addAll [] inserted) e
         = tail (Buffer.addAll [] inserted) ++ [e]) /\
    (length (Buffer.addAll [] inserted) < 100 ->
       Buffer.addToBuffer (Buffer.addAll [] inserted) e
         = Buffer.addAll [] inserted ++ [e]).
Proof.
  intros T inserted e.
  assert (Hlen : length (Buffer.addAll [] inserted) <= Buffer.MAX_BUFFER_SIZE).
  { rewrite addAll_lastn by (cbn; lia). rewrite length_lastn. lia. }
  change 100 with Buffer.MAX_BUFFER_SIZE.
  split; [by apply addToBuffer_length |].
  split.
  { rewrite <- addAll_snoc, addAll_lastn by (cbn; lia). done. }
  split; intros H; unfold Buffer.addToBuffer; cbv zeta;
    rewrite length_app; cbn [length].
  - destruct (Nat.ltb_spec Buffer.MAX_BUFFER_SIZE
                (length (Buffer.addAll [] inserted) + 1)) as [_ | Hge]; [| lia].
    destruct (Buffer.addAll [] inserted); [discriminate | done].
  - destruct (Nat.ltb_spec Buffer.MAX_BUFFER_SIZE
                (length (Buffer.addAll [] inserted) + 1)) as [Hlt | _]; [lia | done].
Qed.

Lemma addToBuffer_keeps_most_recent_witness :
  length (Buffer.addAll [] (seq 0 100)) = 100 /\
  Buffer.addToBuffer (Buffer.addAll [] (seq 0 100)) 100
    = tail (Buffer.addAll [] (seq 0 100)) ++ [100].
Proof.
  split; [vm_compute; reflexivity |].
  apply (addToBuffer_keeps_most_recent nat (seq 0 100) 100).
  vm_compute. reflexivity.
Defined.

Example addAll_overflow :
  Buffer.addAll [] (seq 0 103) = seq 3 100.
Proof. vm_compute. reflexivity. Qed.

(** *** The cap across the registry *)
Section BoundedFacts.
Import Registry.

Lemma deref_push_console d d' e st :
  deref (push_console d e st) d' =
    if decide (d = d')
    then {| console := Buffer.addToBuffer (console (deref st d)) e;
            network := network (deref st d) |}
    else deref st d'.
Proof.
  unfold deref, push_console. cbn. case_decide as Hd.
  - subst. by rewrite lookup_total_insert_eq.
  - by rewrite lookup_total_insert_ne.
Qed.

Lemma deref_push_network d d' e st :
  deref (push_network d e st) d' =
    if decide (d = d')
    then {| console := console (deref st d);
            network := Buffer.addToBuffer (network (deref st d)) e |}
    else deref st d'.
Proof.
  unfold deref, push_network. cbn. case_decide as Hd.
  - subst. by rewrite lookup_total_insert_eq.
  - by rewrite lookup_total_insert_ne.
Qed.

Lemma deref_delete_pending rid st d :
  deref (delete_pending rid st) d = deref st d.
Proof. unfold delete_pending. by repeat case_match. Qed.

Lemma dispatch_bounded d ev st :
  buffers_bounded st -> buffers_bounded (dispatch d ev st).
Proof.
  intros Hb d'. destruct (Hb d) as [Hc Hn], (Hb d') as [Hc' Hn'].
  destruct ev; cbn [dispatch];
    unfold onConsole, onRequest, onResponse, onRequestFailed;
    rewrite ?deref_delete_pending, ?deref_push_console, ?deref_push_network;
    try done; case_decide; cbn; try done;
    split; try done; by apply addToBuffer_length.
Qed.

Lemma dispatchAll_bounded d evs st :
  buffers_bounded st -> buffers_bounded (dispatchAll d evs st).
Proof.
  unfold dispatchAll. revert st.
  induction evs as [| ev evs IH]; intros st Hb; [done |].
  cbn [fold_left]. by apply IH, dispatch_bounded.
Qed.

Lemma initial_bounded : buffers_bounded initial.
Proof. intros d. unfold deref. cbn. rewrite lookup_total_empty. cbn. lia. Qed.

Lemma openSession_bounded env sessionId url st :
  buffers_bounded st -> buffers_bounded (openSession env sessionId url st).2.
Proof.
  intros Hb. unfold openSession. case_decide; [done |].
  assert (Hb1 : buffers_bounded (ensureBrowser (launch env) st).2).
  { unfold ensureBrowser. by repeat case_match. }
  destruct (ensureBrowser (launch env) st) as [[b | m] st1]; [| done].
  cbn [snd] in Hb1.
  destruct (newPage env); [| done].
  destruct (setViewportSize env); [| done].
  match goal with |- context [dispatchAll ?p ?evs ?s0] =>
    assert (Hb4 : buffers_bounded (dispatchAll p evs s0)) end.
  { apply dispatchAll_bounded. intros d. unfold deref. cbn.
    destruct (decide (pages st1 = d)) as [-> | Hne].
    - rewrite lookup_total_insert_eq. cbn. lia.
    - rewrite lookup_total_insert_ne by done. apply Hb1. }
  by destruct (goto env).
Qed.

Lemma closeSession_bounded env sessionId st :
  buffers_bounded st -> buffers_bounded (closeSession env sessionId st).2.
Proof.
  intros Hb. unfold closeSession. by repeat case_match.
Qed.

(** In every state the clients' calls lead to, each diagnostics buffer
    holds at most 100 entries. *)
Lemma run_bounded steps : buffers_bounded (run steps initial).
Proof.
  induction steps as [| s steps IH] using rev_ind.
  - apply initial_bounded.
  - unfold run. rewrite fold_left_app. cbn.
    destruct s; cbn; [by apply openSession_bounded | by apply closeSession_bounded].
Qed.

End BoundedFacts.

(** ** Reading and clearing diagnostics *)
Section DiagnosticsFacts.
Import Registry Diagnostics.

Lemma slice_neg {A} (n : Z) (l : list A) :
  (1 <= n)%Z -> slice (- n) l = Buffer.lastn (Z.to_nat n) l.
Proof.
  intros Hn. unfold slice, Buffer.lastn.
  destruct (Z.ltb_spec (- n) 0) as [_ | ?]; [| lia].
  f_equal. lia.
Qed.

Lemma slice_zero {A} (l : list A) : slice (- 0) l = l.
Proof. unfold slice. cbn. by rewrite Z.min_l by lia. Qed.



Lemma by_level_length level entries :
  length (by_level level entries) <= length entries.
Proof.
  destruct level as [l |]; [| done]. cbn. case_decide; [done |].
  apply length_filter.
Qed.

Lemma deref_clear_console d d' st :
  deref (clear_console d st) d' =
    if decide (d = d')
    then {| console := []; network := network (deref st d) |}
    else deref st d'.
Proof.
  unfold deref, clear_console. cbn. case_decide as Hd.
  - subst. by rewrite lookup_total_insert_eq.
  - by rewrite lookup_total_insert_ne.
Qed.

Lemma deref_clear_network d d' st :
  deref (clear_network d st) d' =
    if decide (d = d')
    then {| console := console (deref st d); network := [] |}
    else deref st d'.
Proof.
  unfold deref, clear_network. cbn. case_decide as Hd.
  - subst. by rewrite lookup_total_insert_eq.
  - by rewrite lookup_total_insert_ne.
Qed.

(** What the handler answers and the state it leaves, for a session that
    exists, as one equation per kind. *)
Lemma handler_found params st session :
  getSession st (p_session params) = Some session ->
  let d := diagnostics session in
  let type := default "all"%string (p_type params) in
  let limit := default 50%Z (p_limit params) in
  let clear := default false (p_clear params) in
  let r := (handler params st).1 in
  let st' := (handler params st).2 in
  console_of r =
    (if selects_console type
     then Some (reverse (slice (- limit)
                  (by_level (p_level params) (console (deref st d)))))
     else None) /\
  network_of r =
    (if selects_network type
     then Some (reverse (slice (- limit) (network (deref st d))))
     else None) /\
  console (deref st' d) =
    (if selects_console type && clear then [] else console (deref st d)) /\
  network (deref st' d) =
    (if selects_network type && clear then [] else network (deref st d)) /\
  sessions st' = sessions st /\
  (forall d', d' <> d -> deref st' d' = deref st d').
Proof.
  intros Hs. cbv zeta. unfold handler. rewrite Hs. cbv zeta.
  destruct (selects_console _), (selects_network _),
    (default false (p_clear params)); cbn;
    rewrite ?deref_clear_network, ?deref_clear_console;
    repeat case_decide; try done; cbn;
    rewrite ?deref_clear_network, ?deref_clear_console;
    repeat case_decide; try done; cbn;
    repeat split; try done;
    intros d' Hd';
    rewrite ?deref_clear_network, ?deref_clear_console;
    repeat case_decide; try done; by subst.
Qed.

End DiagnosticsFacts.

Example slice_examples :
  Diagnostics.slice (-2) [1; 2; 3] = [2; 3] /\
  Diagnostics.slice (-5) [1; 2; 3] = [1; 2; 3] /\
  Diagnostics.slice (- 0) [1; 2; 3] = [1; 2; 3] /\
  Diagnostics.slice 1 [1; 2; 3] = [2; 3] /\
  Diagnostics.slice 7 [1; 2; 3] = [].
Proof. vm_compute. done. Qed.

Example one_session_buffers :
  Registry.console (Registry.deref Examples.one_session 0) = [Examples.log_entry] /\
  Registry.network (Registry.deref Examples.one_session 0)
    = [{| Registry.ne_method := "GET"; Registry.ne_url := "http://localhost/";
          Registry.ne_status := Some 200%Z; Registry.ne_duration := Some 7%Z;
          Registry.ne_error := None; Registry.ne_timestamp := 1007 |}] /\
  Registry.pendingRequests Examples.one_session
    = {[ "http://localhost/app.js-1008"%string :=
           {| Registry.start := 1008; Registry.pr_method := "GET";
              Registry.pr_url := "http://localhost/app.js" |} ]} /\
  Registry.getSession Examples.one_session "main"
    = Some {| Registry.id := "main"; Registry.page := 0;
              Registry.createdAt := 1000; Registry.diagnostics := 0 |}.
Proof. vm_compute. done. Qed.

(** C2 (as amended).  For a read of an existing session with a limit
    [n >= 1] (the default 50 included), each selected kind answers with the
    last [n] of the entries that pass the level filter (all entries for the
    network kind, and for the console kind when no level is given), most
    recent first: exactly [min n m] entries where [m] counts those entries,
    hence never more than [n] and never more than the buffer holds. *)
Theorem handler_limit_most_recent_first :
  forall (params : Diagnostics.DiagnosticsParams) (st : Registry.State)
         (session : Registry.Session),
    Registry.getSession st (Diagnostics.p_session params) = Some session ->
    (1 <= default 50%Z (Diagnostics.p_limit params))%Z ->
    (Diagnostics.selects_console
       (default "all"%string (Diagnostics.p_type params)) = true ->
     exists entries,
       Diagnostics.console_of (Diagnostics.handler params st).1 = Some entries /\
       entries = reverse (Buffer.lastn
                   (Z.to_nat (default 50%Z (Diagnostics.p_limit params)))
                   (Diagnostics.by_level (Diagnostics.p_level params)
                      (Registry.console
                         (Registry.deref st (Registry.diagnostics session))))) /\
       length entries =
         Nat.min (Z.to_nat (default 50%Z (Diagnostics.p_limit params)))
           (length (Diagnostics.by_level (Diagnostics.p_level params)
              (Registry.console
                 (Registry.deref st (Registry.diagnostics session))))) /\
       (falsy (Diagnostics.p_level params) = true ->
        length entries =
          Nat.min (Z.to_nat (default 50%Z (Diagnostics.p_limit params)))
            (length (Registry.console
               (Registry.deref st (Registry.diagnostics session))))) /\
       length entries <=
         length (Registry.console
           (Registry.deref st (Registry.diagnostics session)))) /\
    (Diagnostics.selects_network
       (default "all"%string (Diagnostics.p_type params)) = true ->
     exists entries,
       Diagnostics.network_of (Diagnostics.handler params st).1 = Some entries /\
       entries = reverse (Buffer.lastn
                   (Z.to_nat (default 50%Z (Diagnostics.p_limit params)))
                   (Registry.network
                      (Registry.deref st (Registry.diagnostics session)))) /\
       length entries =
         Nat.min (Z.to_nat (default 50%Z (Diagnostics.p_limit params)))
           (length (Registry.network
              (Registry.deref st (Registry.diagnostics session))))).
Proof.
  intros params st session Hs Hlimit.
  destruct (handler_found params st session Hs) as (Hc & Hn & _).
  split; intros Hsel.
  - rewrite Hsel in Hc. eexists. split; [exact Hc |].
    rewrite slice_neg by done.
    split; [done |].
    rewrite length_reverse, length_lastn.
    split; [done |].
    split.
    + intros Hlevel. destruct (Diagnostics.p_level params) as [l |]; [| done].
      cbn in Hlevel |- *. destruct l; [done | discriminate].
    + pose proof (by_level_length (Diagnostics.p_level params)
        (Registry.console (Registry.deref st (Registry.diagnostics session)))).
      lia.
  - rewrite Hsel in Hn. eexists. split; [exact Hn |].
    rewrite slice_neg by done.
    split; [done |].
    by rewrite length_reverse, length_lastn.
Qed.

Lemma handler_limit_most_recent_first_witness :
  Diagnostics.console_of
    (Diagnostics.handler (Examples.read "all" None None None)
       Examples.one_session).1 = Some [Examples.log_entry] /\
  exists entries,
    Diagnostics.network_of
      (Diagnostics.handler (Examples.read "all" None None None)
         Examples.one_session).1 = Some entries /\
    length entries = 1.
Proof.
  destruct (handler_limit_most_recent_first
              (Examples.read "all" None None None) Examples.one_session
              {| Registry.id := "main"; Registry.page := 0;
                 Registry.createdAt := 1000; Registry.diagnostics := 0 |})
    as [Hc Hn].
  - vm_compute. reflexivity.
  - vm_compute. discriminate.
  - split.
    + vm_compute. reflexivity.
    + destruct Hn as (entries & Hr & _ & Hlen); [vm_compute; reflexivity |].
      exists entries. split; [exact Hr |]. rewrite Hlen. vm_compute. reflexivity.
Defined.

(** C2 as stated fails twice on the session [Examples.one_session], whose
    console buffer holds one entry, of level ["log"].  A read filtered by
    level ["error"] with the default limit answers with no entry, not with
    [min 50 1 = 1]; and a read with limit [0] answers with the whole buffer
    (one entry), not with [min 0 1 = 0] entries. *)
Lemma handler_limit_counterexample :
  length (Registry.console (Registry.deref Examples.one_session 0)) = 1 /\
  Diagnostics.console_of
    (Diagnostics.handler (Examples.read "console" (Some "error"%string) None None)
       Examples.one_session).1 = Some [] /\
  Diagnostics.console_of
    (Diagnostics.handler (Examples.read "console" None (Some 0%Z) None)
       Examples.one_session).1 = Some [Examples.log_entry].
Proof. vm_compute. done. Qed.



(** ** The session registry *)

(** C4.  [openSession] on a name that is already bound throws the
    duplicate-session error and returns the state it was given: the bound
    session, the rest of the registry, the browser handle, the page counter
    and the diagnostics objects are all unchanged. *)
Theorem openSession_duplicate_unchanged :
  forall (env : Registry.OpenEnv) (sessionId url : string)
         (st : Registry.State) (existing : Registry.Session),
    Registry.sessions st !! sessionId = Some existing ->
    Registry.openSession env sessionId url st
      = (Throw ("Session '" +:+ sessionId +:+ "' already exists")%string, st).
Proof.
  intros env sessionId url st existing Hbound.
  unfold Registry.openSession.
  case_decide as Hsome; [done |].
  exfalso. apply Hsome. by exists existing.
Qed.

Lemma openSession_duplicate_unchanged_witness :
  Registry.openSession (Examples.quiet_open []) "main" "http://localhost/other"
    Examples.one_session
  = (Throw "Session 'main' already exists"%string, Examples.one_session).
Proof.
  apply (openSession_duplicate_unchanged (Examples.quiet_open []) "main"
           "http://localhost/other" Examples.one_session
           {| Registry.id := "main"; Registry.page := 0;
              Registry.createdAt := 1000; Registry.diagnostics := 0 |}).
  vm_compute. reflexivity.
Defined.

Section RegistryFacts.
Import Registry.

Lemma sessions_dispatch d ev st :
  sessions (dispatch d ev st) = sessions st /\
  browser (dispatch d ev st) = browser st.
Proof.
  destruct ev; cbn; unfold onConsole, onRequest, onResponse, onRequestFailed,
    delete_pending; cbn; repeat case_match; done.
Qed.

Lemma sessions_dispatchAll d evs st :
  sessions (dispatchAll d evs st) = sessions st /\
  browser (dispatchAll d evs st) = browser st.
Proof.
  unfold dispatchAll. revert st.
  induction evs as [| ev evs IH]; intros st; [done |].
  cbn [fold_left]. destruct (IH (dispatch d ev st)) as [-> ->].
  apply sessions_dispatch.
Qed.

Lemma openSession_undisturbed env sessionId url st :
  undisturbed (StepOpen env sessionId url) = true ->
  engine_follows_sessions st ->
  engine_follows_sessions (openSession env sessionId url st).2.
Proof.
  intros Hq [Hiff Hconn]. cbn in Hq.
  unfold openSession. case_decide; [done |].
  destruct (launch env), (newPage env), (setViewportSize env), (goto env);
    try discriminate.
  unfold ensureBrowser.
  destruct (browser st) as [b |] eqn:Hb.
  - rewrite (Hconn b eq_refl). cbn.
    destruct (sessions_dispatchAll (pages st) (goto_events env)
      (set_heap (<[pages st:={| console := []; network := [] |}]> (heap st))
         (set_pages (S (pages st)) st))) as [_ Hbr].
    split; cbn.
    + rewrite Hbr. cbn. rewrite Hb. split; [done |].
      intros He. by apply insert_non_empty in He.
    + rewrite Hbr. cbn. rewrite Hb. intros ? [= <-]. by apply Hconn.
  - cbn.
    match goal with |- context [dispatchAll ?d ?evs ?s] =>
      destruct (sessions_dispatchAll d evs s) as [_ Hbr] end.
    split; cbn.
    + rewrite Hbr. cbn. split; [done |].
      intros He. by apply insert_non_empty in He.
    + rewrite Hbr. cbn. by intros ? [= <-].
Qed.

Lemma closeSession_undisturbed env sessionId st :
  undisturbed (StepClose env sessionId) = true ->
  engine_follows_sessions st ->
  engine_follows_sessions (closeSession env sessionId st).2.
Proof.
  intros Hq [Hiff Hconn]. cbn in Hq.
  unfold closeSession.
  destruct (sessions st !! sessionId) as [session |] eqn:Hs; [| done].
  destruct (page_close env), (browser_close env); try discriminate.
  cbn. destruct (browser st) as [b |] eqn:Hb.
  - case_decide as Hsize; cbn.
    + split; [| done]. split; [| done]. intros _.
      by apply map_size_empty_iff.
    + unfold engine_follows_sessions. cbn. rewrite Hb.
      split; [| done].
      split; [done |]. intros He. rewrite He, map_size_empty in Hsize. done.
  - destruct Hiff as [He _]. rewrite (He eq_refl) in Hs.
    by rewrite lookup_empty in Hs.
Qed.

(** As long as no engine call rejects, the handle is live exactly while a
    session is open. *)
Lemma run_undisturbed steps :
  forallb undisturbed steps = true ->
  engine_follows_sessions (run steps initial).
Proof.
  induction steps as [| s steps IH] using rev_ind; intros Hq.
  - by split.
  - rewrite forallb_app in Hq. cbn in Hq.
    apply andb_prop in Hq as [Hsteps Hs]. rewrite andb_true_r in Hs.
    unfold run. rewrite fold_left_app. cbn.
    destruct s as [env sessionId url | env sessionId]; cbn.
    + by apply openSession_undisturbed, IH.
    + by apply closeSession_undisturbed, IH.
Qed.

End RegistryFacts.

(** C5, at the input where the code departs from it.  From the initial
    state, one [openSession] call whose [page.goto] rejects launches the
    browser and throws before the session is stored: the handle is live and
    no session is open.  Closing cannot release it, since there is no
    session to close. *)
Theorem openSession_failed_goto_keeps_browser :
  Registry.openSession Examples.failed_goto "main" "http://nowhere.invalid/"
    Registry.initial
  = (Throw "net::ERR_NAME_NOT_RESOLVED"%string,
     Registry.run [Registry.StepOpen Examples.failed_goto "main"
                     "http://nowhere.invalid/"] Registry.initial) /\
  Registry.browser
    (Registry.run [Registry.StepOpen Examples.failed_goto "main"
                     "http://nowhere.invalid/"] Registry.initial)
  = Some {| Registry.bid := 0; Registry.isConnected := true |} /\
  Registry.sessions
    (Registry.run [Registry.StepOpen Examples.failed_goto "main"
                     "http://nowhere.invalid/"] Registry.initial) = ∅ /\
  Registry.closeSession Examples.quiet_close "main"
    (Registry.run [Registry.StepOpen Examples.failed_goto "main"
                     "http://nowhere.invalid/"] Registry.initial)
  = (Ok false,
     Registry.run [Registry.StepOpen Examples.failed_goto "main"
                     "http://nowhere.invalid/"] Registry.initial).
Proof. vm_compute. done. Qed.

Section NetworkFacts.
Import Registry.

Lemma ensureBrowser_reuses l st b :
  browser st = Some b -> isConnected b = true ->
  ensureBrowser l st = (Ok b, st).
Proof. intros Hb Hc. unfold ensureBrowser. by rewrite Hb, Hc. Qed.

Lemma last_addToBuffer {T} (b : list T) (e : T) :
  last (Buffer.addToBuffer b e) = Some e.
Proof.
  unfold Buffer.addToBuffer. cbv zeta.
  destruct (Nat.ltb_spec Buffer.MAX_BUFFER_SIZE (length (b ++ [e]))) as [Hlt | _].
  - destruct b as [| x b]; [cbn in Hlt; unfold Buffer.MAX_BUFFER_SIZE in Hlt; lia |].
    cbn. apply last_snoc.
  - apply last_snoc.
Qed.

Lemma push_network_spec d e st :
  network (deref (push_network d e st) d)
    = Buffer.addToBuffer (network (deref st d)) e /\
  console (deref (push_network d e st) d) = console (deref st d) /\
  pendingRequests (push_network d e st) = pendingRequests st /\
  requestIds (push_network d e st) = requestIds st.
Proof.
  unfold push_network, deref. cbn. by rewrite lookup_total_insert_eq.
Qed.


(** Under a clock that does not run backwards, [started_by] is kept by
    every observer. *)
Lemma dispatch_started_by d ev t t' st :
  started_by t st -> (t <= t')%Z ->
  (forall req now_id now_start,
     ev = EvRequest req now_id now_start -> (now_start <= t')%Z) ->
  started_by t' (dispatch d ev st).
Proof.
  intros Hst Ht Hreq id p.
  destruct ev as [msg now | req now_id now_start | req status now stamp
                 | req failure now stamp]; cbn.
  - intros Hp. specialize (Hst id p Hp). lia.
  - unfold onRequest. cbn.
    destruct (decide (requestId_of (req_url req) now_id = id)) as [<- | Hne].
    + rewrite lookup_insert_eq. intros [= <-]. cbn. by eapply Hreq.
    + rewrite lookup_insert_ne by done. intros Hp. specialize (Hst id p Hp). lia.
  - unfold onResponse, delete_pending.
    repeat case_match; cbn; intros Hp;
      try apply lookup_delete_Some in Hp as [_ Hp];
      specialize (Hst id p Hp); lia.
  - unfold onRequestFailed, delete_pending.
    repeat case_match; cbn; intros Hp;
      try apply lookup_delete_Some in Hp as [_ Hp];
      specialize (Hst id p Hp); lia.
Qed.

(** If every request observed so far read its start no later than [t],
    no pending request was started after [t]. *)
Lemma dispatchAll_started_by d evs t st :
  started_by t st ->
  (forall req now_id now_start,
     EvRequest req now_id now_start ∈ evs -> (now_start <= t)%Z) ->
  started_by t (dispatchAll d evs st).
Proof.
  unfold dispatchAll. revert st.
  induction evs as [| ev evs IH]; intros st Hst Hreq; [done |].
  cbn [fold_left]. apply IH.
  - apply (dispatch_started_by d ev t t st Hst); [lia |].
    intros req now_id now_start ->. eapply Hreq. by left.
  - intros req now_id now_start Hin. eapply Hreq. by right.
Qed.

End NetworkFacts.




Example collision_loses_duration :
  Registry.ne_duration <$>
    Registry.network (Registry.deref Examples.colliding 0)
  = [Some 10%Z; None] /\
  Registry.pendingRequests Examples.colliding = ∅.
Proof. vm_compute. done. Qed.

(** ** Actions *)
Section ActionFacts.
Import Actions Contract.

Lemma case_of_name type a : case_of type = Some a -> type = name_of a.
Proof.
  unfold case_of, action_types. cbn.
  repeat (case_bool_decide; [cbn; intros [= <-]; by subst |]).
  done.
Qed.

Lemma case_of_press : case_of "press" = Some press.
Proof. reflexivity. Qed.

End ActionFacts.

Example performAction_navigate :
  Actions.performAction Examples.obliging
    {| Actions.a_type := "navigate"; Actions.a_selector := None;
       Actions.a_value := None; Actions.a_url := Some "http://localhost/"%string |} []
  = (Ok {| Actions.success := true; Actions.action := "navigate";
           Actions.r_url := Some "http://localhost/"%string;
           Actions.r_title := Some "Example Domain"%string;
           Actions.r_selector := None; Actions.r_direction := None;
           Actions.r_error := None |},
     [Actions.PgGoto "http://localhost/"; Actions.PgTitle]).
Proof. reflexivity. Qed.

Example performAction_unknown :
  Actions.performAction Examples.obliging (Examples.act "hover" None None) []
  = (Throw "Unknown action type: hover"%string, []).
Proof. reflexivity. Qed.

(** C8.  An invocation that lacks a parameter its action type requires, or
    whose type is not an action type, makes [performAction] throw the error
    that names the type and the missing parameter; the trace of page calls
    is returned as it was given, whatever the engine: no page operation is
    performed. *)
Theorem performAction_validates_first :
  forall (E : Actions.Engine) (p : Actions.ActionParams)
         (tr : list Actions.PageOp),
    Contract.lacks_required p = true ->
    Actions.performAction E p tr = (Throw (Contract.usage_error p), tr).
Proof.
  intros E p tr. unfold Contract.lacks_required, Contract.usage_error,
    Actions.performAction. cbv zeta.
  destruct (Actions.case_of (Actions.a_type p)) as [a |] eqn:Hcase.
  - apply case_of_name in Hcase. rewrite Hcase.
    destruct a, (Actions.a_selector p) as [sel |], (Actions.a_value p) as [v |],
      (Actions.a_url p) as [u |]; cbn; try discriminate; intros _; try done;
      unfold Actions.bind, Actions.required; case_decide; subst; try done;
      by destruct sel.
  - done.
Qed.

Lemma performAction_validates_first_witness :
  Actions.performAction Examples.obliging
    (Examples.act "fill" (Some "#q"%string) None)
    [Actions.PgGoto "http://localhost/"]
  = (Throw "fill requires value parameter"%string,
     [Actions.PgGoto "http://localhost/"]).
Proof.
  apply (performAction_validates_first Examples.obliging
           (Examples.act "fill" (Some "#q"%string) None)
           [Actions.PgGoto "http://localhost/"]).
  reflexivity.
Defined.

(** C9 (as amended).  For a press action: with a selector, the key pressed
    on that element is the value, or ["Enter"] when the value is omitted;
    without a selector, the value is the key pressed on the page's keyboard;
    without both, the action throws and presses nothing.  When the key press
    resolves, the action waits for the load state, ignores a rejection of
    that wait, and reports the page's URL after it; when the key press
    rejects, the action throws that error. *)
Theorem press_sends_key :
  forall (E : Actions.Engine) (p : Actions.ActionParams)
         (tr : list Actions.PageOp),
    Actions.a_type p = "press"%string ->
    (forall sel, Actions.a_selector p = Some sel -> sel <> ""%string ->
       Actions.performAction E p tr =
         match Actions.answer E tr
                 (Actions.PgPress sel (or_default (Actions.a_value p) "Enter")) with
         | Ok _ =>
             (Ok (Contract.pressed "press"
                    (Actions.url_of E
                       (tr ++ [Actions.PgPress sel
                                 (or_default (Actions.a_value p) "Enter");
                               Actions.PgWaitForLoadState]))),
              tr ++ [Actions.PgPress sel (or_default (Actions.a_value p) "Enter");
                     Actions.PgWaitForLoadState])
         | Throw m =>
             (Throw m,
              tr ++ [Actions.PgPress sel (or_default (Actions.a_value p) "Enter")])
         end) /\
    (forall key, falsy (Actions.a_selector p) = true ->
       Actions.a_value p = Some key -> key <> ""%string ->
       Actions.performAction E p tr =
         match Actions.answer E tr (Actions.PgKeyboardPress key) with
         | Ok _ =>
             (Ok (Contract.pressed "press"
                    (Actions.url_of E
                       (tr ++ [Actions.PgKeyboardPress key;
                               Actions.PgWaitForLoadState]))),
              tr ++ [Actions.PgKeyboardPress key; Actions.PgWaitForLoadState])
         | Throw m => (Throw m, tr ++ [Actions.PgKeyboardPress key])
         end) /\
    (falsy (Actions.a_selector p) = true -> falsy (Actions.a_value p) = true ->
       Actions.performAction E p tr =
         (Throw "press requires selector or value (key) parameter"%string, tr)).
Proof.
  intros E p tr Htype. unfold Actions.performAction. cbv zeta.
  rewrite Htype, case_of_press.
  split; [| split].
  - intros sel Hsel Hne. rewrite Hsel.
    assert (Hf : falsy (Some sel) = false) by (by destruct sel).
    unfold truthy. rewrite Hf. cbn [andb negb default].
    unfold Actions.bind, Actions.call, Actions.swallow, Actions.page_url,
      Actions.ret. cbn [fst snd].
    destruct (Actions.answer E tr _) as [v | m]; [| done].
    by rewrite <- app_assoc.
  - intros key Hsel Hval Hne. rewrite Hval.
    assert (Hf : falsy (Some key) = false) by (by destruct key).
    unfold truthy. rewrite Hsel, Hf. cbn [andb negb default].
    unfold Actions.bind, Actions.call, Actions.swallow, Actions.page_url,
      Actions.ret. cbn [fst snd].
    destruct (Actions.answer E tr _) as [v | m]; [| done].
    by rewrite <- app_assoc.
  - intros Hsel Hval. by rewrite Hsel, Hval.
Qed.

Lemma press_sends_key_witness :
  Actions.performAction Examples.obliging
    (Examples.act "press" (Some "#q"%string) None)
    [Actions.PgGoto "http://localhost/"]
  = (Ok (Contract.pressed "press" "http://localhost/"),
     [Actions.PgGoto "http://localhost/"; Actions.PgPress "#q" "Enter";
      Actions.PgWaitForLoadState]).
Proof.
  destruct (press_sends_key Examples.obliging
              (Examples.act "press" (Some "#q"%string) None)
              [Actions.PgGoto "http://localhost/"] eq_refl) as [Hsel _].
  rewrite (Hsel "#q"%string eq_refl); [reflexivity | discriminate].
Defined.

(** C9 as stated fails when both the selector and the value are omitted:
    the action throws and no key, ["Enter"] or other, reaches the page. *)
Lemma press_without_key_counterexample :
  Actions.performAction Examples.obliging (Examples.act "press" None None) []
  = (Throw "press requires selector or value (key) parameter"%string, []).
Proof. reflexivity. Qed.

(** ** The sequence runner *)
Section SequenceFacts.
Import Actions Sequence.
Variable E : Engine.
Variable Condition : Type.
Variable evaluate : Condition -> list PageOp -> result bool.

Abbreviation Steps := (list (SequenceStep Condition)).

Lemma events_from_index steps : forall i tr,
  index <$> events_from E evaluate i steps tr = seq i (length steps).
Proof.
  induction steps as [| s steps IH]; intros i tr; [done |].
  cbn. by rewrite IH.
Qed.

(** Steps that all succeed are all attempted, one event each, and the loop
    goes on with what follows them. *)
Lemma loop_through (pre rest : Steps) : forall i evs tr,
  all_succeed E evaluate pre tr = true ->
  loop E evaluate i (pre ++ rest) evs tr
    = loop E evaluate (i + length pre) rest
        (evs ++ events_from E evaluate i pre tr)
        (trace_after E evaluate pre tr).
Proof.
  induction pre as [| s pre IH]; intros i evs tr Hall.
  - cbn. by rewrite app_nil_r, Nat.add_0_r.
  - cbn in Hall. apply andb_prop in Hall as [Hs Hrest].
    unfold succeeds in Hs. cbn [loop app events_from].
    unfold event_of, trace_after. cbn [fold_left].
    destruct (runStep E evaluate s tr) as [[okay info] tr'] eqn:Hstep.
    cbn in Hs, Hrest |- *. subst okay.
    rewrite (IH (S i) _ tr' Hrest). unfold trace_after.
    rewrite <- app_assoc. cbn [app].
    by replace (S i + length pre) with (i + S (length pre)) by lia.
Qed.

Lemma trace_after_snoc (pre : Steps) s tr :
  trace_after E evaluate (pre ++ [s]) tr
    = (runStep E evaluate s (trace_after E evaluate pre tr)).2.
Proof. unfold trace_after. by rewrite fold_left_app. Qed.

(** A failing step right after steps that succeed: the run aborts there,
    whatever follows. *)
Lemma runSequence_aborts (pre post : Steps) s tr :
  all_succeed E evaluate pre tr = true ->
  succeeds E evaluate s (trace_after E evaluate pre tr) = false ->
  runSequence E evaluate (pre ++ s :: post) tr
    = ({| seq_success := false; completed := length pre + 1;
          total := length (pre ++ s :: post);
          events := events_from E evaluate 0 pre tr
                    ++ [event_of E evaluate (length pre) s
                          (trace_after E evaluate pre tr)];
          final_url := url_of E (trace_after E evaluate (pre ++ [s]) tr) |},
       trace_after E evaluate (pre ++ [s]) tr).
Proof.
  intros Hall Hs. unfold runSequence.
  rewrite (loop_through pre (s :: post) 0 [] tr Hall).
  rewrite trace_after_snoc. unfold succeeds in Hs. cbn [loop]. unfold event_of.
  destruct (runStep E evaluate s _) as [[okay info] tr'] eqn:Hstep.
  cbn in Hs. subst okay. cbn [fst snd app Nat.add].
  f_equal. f_equal.
  rewrite length_app. cbn [length].
  pose proof (f_equal (@length _) (events_from_index pre 0 tr)) as Hlen.
  rewrite length_fmap, length_seq in Hlen. lia.
Qed.

Lemma runSequence_completes (steps : Steps) tr :
  all_succeed E evaluate steps tr = true ->
  runSequence E evaluate steps tr
    = ({| seq_success := true; completed := length steps;
          total := length steps; events := events_from E evaluate 0 steps tr;
          final_url := url_of E (trace_after E evaluate steps tr) |},
       trace_after E evaluate steps tr).
Proof.
  intros Hall. unfold runSequence.
  rewrite <- (app_nil_r steps) at 1.
  rewrite (loop_through steps [] 0 [] tr Hall). cbn [loop app].
  f_equal. f_equal.
  pose proof (f_equal (@length _) (events_from_index steps 0 tr)) as Hlen.
  by rewrite length_fmap, length_seq in Hlen.
Qed.

End SequenceFacts.

(** C7.  Let the first [k - 1] steps of a sequence succeed, each run on the
    page as its predecessors left it ([pre], of length [k - 1]).  If step
    [k] then throws or fails, the run returns a record with
    [completed = k], [total = n] and [success = false]; its events are
    those of steps [1..k], the ones the run of the first [k] steps alone
    records, and the page has seen the calls of these [k] steps only: the
    steps after [k] are not executed.  If nothing follows [pre], the run
    returns [completed = total] and [success = true].  In both cases the
    run returns a record: no exception escapes. *)
Theorem runSequence_stops_at_first_failure :
  forall (E : Actions.Engine) (Condition : Type)
         (evaluate : Condition -> list Actions.PageOp -> result bool)
         (pre post : list (Sequence.SequenceStep Condition))
         (tr : list Actions.PageOp),
    Sequence.all_succeed E evaluate pre tr = true ->
    (forall s : Sequence.SequenceStep Condition,
       Sequence.succeeds E evaluate s (Sequence.trace_after E evaluate pre tr)
         = false ->
       Sequence.completed (Sequence.runSequence E evaluate (pre ++ s :: post) tr).1
         = length pre + 1 /\
       Sequence.total (Sequence.runSequence E evaluate (pre ++ s :: post) tr).1
         = length (pre ++ s :: post) /\
       Sequence.seq_success
         (Sequence.runSequence E evaluate (pre ++ s :: post) tr).1 = false /\
       Sequence.index <$>
         Sequence.events (Sequence.runSequence E evaluate (pre ++ s :: post) tr).1
         = seq 0 (length pre + 1) /\
       Sequence.events (Sequence.runSequence E evaluate (pre ++ s :: post) tr).1
         = Sequence.events (Sequence.runSequence E evaluate (pre ++ [s]) tr).1 /\
       (Sequence.runSequence E evaluate (pre ++ s :: post) tr).2
         = Sequence.trace_after E evaluate (pre ++ [s]) tr) /\
    Sequence.completed (Sequence.runSequence E evaluate pre tr).1 = length pre /\
    Sequence.total (Sequence.runSequence E evaluate pre tr).1 = length pre /\
    Sequence.seq_success (Sequence.runSequence E evaluate pre tr).1 = true /\
    (Sequence.runSequence E evaluate pre tr).2
      = Sequence.trace_after E evaluate pre tr.
Proof.
  intros E Condition evaluate pre post tr Hall. split.
  - intros s Hs.
    rewrite (runSequence_aborts E Condition evaluate pre post s tr Hall Hs).
    rewrite (runSequence_aborts E Condition evaluate pre [] s tr Hall Hs).
    cbn [fst snd Sequence.completed Sequence.total Sequence.seq_success
         Sequence.events].
    repeat (split; [done |]).
    split; [| done].
    rewrite fmap_app, events_from_index. cbn [fmap list_fmap Sequence.index Sequence.event_of].
    by rewrite seq_app.
  - by rewrite (runSequence_completes E Condition evaluate pre tr Hall).
Qed.

Lemma runSequence_stops_at_first_failure_witness :
  Sequence.completed
    (Sequence.runSequence Examples.no_button Examples.verdict
       Examples.five_steps []).1 = 2 /\
  Sequence.total
    (Sequence.runSequence Examples.no_button Examples.verdict
       Examples.five_steps []).1 = 5 /\
  Sequence.seq_success
    (Sequence.runSequence Examples.no_button Examples.verdict
       Examples.five_steps []).1 = false /\
  (Sequence.runSequence Examples.no_button Examples.verdict
     Examples.five_steps []).2
    = [Actions.PgFill "#q" "rocq"; Actions.PgClick "#go"].
Proof.
  destruct (runSequence_stops_at_first_failure Examples.no_button bool
              Examples.verdict
              [Sequence.ActionStep (Examples.act "fill" (Some "#q"%string)
                                      (Some "rocq"%string))]
              [Sequence.ActionStep (Examples.act "press" None (Some "Enter"%string));
               Sequence.AssertStep true;
               Sequence.ActionStep (Examples.act "scroll" None None)]
              [] eq_refl) as [Hfail _].
  destruct (Hfail (Sequence.ActionStep (Examples.act "click" (Some "#go"%string) None))
              eq_refl) as (Hc & Ht & Hs & _ & _ & Htr).
  split; [exact Hc |]. split; [exact Ht |]. split; [exact Hs | exact Htr].
Defined.

(** ** The describe tool *)

(** C10.  While no vision provider is configured, [handler] returns the
    configuration error with [success = false] for every session name and
    every registry state, the states in which the name is not bound
    included; the response has no [availableSessions] field. *)
Theorem describe_checks_configuration_first :
  forall (env : Describe.ProcessEnv) (cam : Describe.Camera)
         (api : Describe.VisionApi) (params : Describe.DescribeParams)
         (st : Registry.State),
    Describe.isConfigured env = false ->
    Describe.handler env cam api params st
      = {| Describe.success := Some false;
           Describe.description := None;
           Describe.provider := None;
           Describe.error :=
             Some "Vision not configured. Set OPENAI_API_KEY or ANTHROPIC_API_KEY environment variable."%string;
           Describe.availableSessions := None |}.
Proof.
  intros env cam api params st Hconf.
  unfold Describe.handler. cbv zeta. by rewrite Hconf.
Qed.

Lemma describe_checks_configuration_first_witness :
  Registry.getSession Registry.initial "ghost" = None /\
  Describe.availableSessions
    (Describe.handler Examples.no_keys Examples.blind Examples.mute
       Examples.describe_ghost Registry.initial) = None /\
  Describe.success
    (Describe.handler Examples.no_keys Examples.blind Examples.mute
       Examples.describe_ghost Registry.initial) = Some false.
Proof.
  split; [reflexivity |].
  rewrite (describe_checks_configuration_first Examples.no_keys Examples.blind
             Examples.mute Examples.describe_ghost Registry.initial eq_refl).
  split; reflexivity.
Defined.

(** * Further properties of the code *)

(** ** Closing, opening and shutting down *)
Section LifecycleFacts.
Import Registry Server.

Lemma set_sessions_same st : set_sessions (sessions st) st = st.
Proof. by destruct st. Qed.

(** What [ensureBrowser] leaves when the launch, if any, resolves. *)
Lemma ensureBrowser_resolves st :
  exists b,
    (ensureBrowser Resolves st).1 = Ok b /\
    browser (ensureBrowser Resolves st).2 = Some b /\
    isConnected b = true /\
    sessions (ensureBrowser Resolves st).2 = sessions st /\
    heap (ensureBrowser Resolves st).2 = heap st /\
    pages (ensureBrowser Resolves st).2 = pages st /\
    pendingRequests (ensureBrowser Resolves st).2 = pendingRequests st /\
    requestIds (ensureBrowser Resolves st).2 = requestIds st /\
    (forall b0, browser st = Some b0 -> isConnected b0 = true ->
       b = b0 /\ launched (ensureBrowser Resolves st).2 = launched st).
Proof.
  unfold ensureBrowser.
  destruct (browser st) as [b0 |] eqn:Hb; [destruct (isConnected b0) eqn:Hc |].
  - exists b0. cbn. repeat (split; [done |]). by intros ? [= <-].
  - eexists. cbn. repeat (split; [done |]). intros ? [= <-]. congruence.
  - eexists. cbn. repeat (split; [done |]). done.
Qed.

Lemma openSession_quiet env sessionId url st :
  sessions st !! sessionId = None ->
  undisturbed (StepOpen env sessionId url) = true ->
  openSession env sessionId url st =
    (Ok {| id := sessionId; page := pages st; createdAt := now env;
           diagnostics := pages st |},
     set_sessions (<[sessionId := {| id := sessionId; page := pages st;
                                    createdAt := now env;
                                    diagnostics := pages st |}]> (sessions st))
       (navigated env st)).
Proof.
  intros Hfresh Hq. cbn in Hq. unfold openSession.
  case_decide as Hsome; [rewrite Hfresh in Hsome; by destruct Hsome |].
  destruct (launch env), (newPage env), (setViewportSize env), (goto env);
    try discriminate.
  destruct (ensureBrowser_resolves st) as (b & Hr & _ & _ & Hs & _ & Hp & _).
  destruct (ensureBrowser Resolves st) as [r st1] eqn:He. cbn in Hr, Hs, Hp.
  subst r. unfold navigated. rewrite He. cbn [snd]. rewrite Hp.
  match goal with |- context [sessions (dispatchAll ?d ?evs ?s)] =>
    destruct (sessions_dispatchAll d evs s) as [-> _] end.
  cbn. by rewrite Hs.
Qed.

Lemma pages_dispatch d ev st : pages (dispatch d ev st) = pages st.
Proof.
  destruct ev; cbn; unfold onConsole, onRequest, onResponse, onRequestFailed,
    delete_pending; cbn; repeat case_match; done.
Qed.

Lemma pages_dispatchAll d evs st : pages (dispatchAll d evs st) = pages st.
Proof.
  unfold dispatchAll. revert st.
  induction evs as [| ev evs IH]; intros st; [done |].
  cbn [fold_left]. by rewrite IH, pages_dispatch.
Qed.

Lemma navigated_spec env st :
  sessions (navigated env st) = sessions st /\
  pages (navigated env st) = S (pages st) /\
  browser (navigated env st) = browser (ensureBrowser Resolves st).2.
Proof.
  unfold navigated. rewrite pages_dispatchAll.
  match goal with |- context [dispatchAll ?d ?evs ?s] =>
    destruct (sessions_dispatchAll d evs s) as [-> ->] end.
  cbn.
  destruct (ensureBrowser_resolves st) as (b & _ & _ & _ & Hss & _).
  by rewrite Hss.
Qed.

End LifecycleFacts.

Section LifecycleExtras.
Import Registry Server.

Lemma launched_dispatchAll d evs st :
  launched (dispatchAll d evs st) = launched st.
Proof.
  unfold dispatchAll. revert st.
  induction evs as [| ev evs IH]; intros st; [done |].
  cbn [fold_left]. rewrite IH.
  destruct ev; cbn; unfold onConsole, onRequest, onResponse, onRequestFailed,
    delete_pending; cbn; repeat case_match; done.
Qed.

Lemma closeSession_quiet env sessionId st :
  page_close env = Resolves -> browser_close env = Resolves ->
  closeSession env sessionId st =
    match sessions st !! sessionId with
    | None => (Ok false, st)
    | Some _ =>
        (Ok true,
         if bool_decide (delete sessionId (sessions st) = ∅)
         then set_browser None (set_sessions (delete sessionId (sessions st)) st)
         else set_sessions (delete sessionId (sessions st)) st)
    end.
Proof.
  intros Hp Hb. unfold closeSession. rewrite Hp, Hb.
  destruct (sessions st !! sessionId) as [s |]; [| done].
  cbn. destruct (browser st) as [b |] eqn:Hbr.
  - case_decide as Hsize.
    + apply map_size_empty_iff in Hsize. by rewrite bool_decide_eq_true_2.
    + rewrite bool_decide_eq_false_2; [done |].
      intros He. by rewrite He, map_size_empty in Hsize.
  - case_bool_decide; [| done]. f_equal.
    destruct st. cbn in *. by subst.
Qed.

End LifecycleExtras.

(** X1.  When the page and the browser close without error,
    [closeSession] answers whether the name was bound, removes that name
    and no other, releases the browser handle exactly when it removed the
    last session, and leaves the diagnostics objects, the pending requests
    and the page counter alone. *)
Theorem closeSession_removes_exactly_one :
  forall (env : Registry.CloseEnv) (sessionId : string) (st : Registry.State),
    Registry.page_close env = Resolves ->
    Registry.browser_close env = Resolves ->
    (Registry.closeSession env sessionId st).1
      = Ok (bool_decide (is_Some (Registry.sessions st !! sessionId))) /\
    Registry.sessions (Registry.closeSession env sessionId st).2
      = delete sessionId (Registry.sessions st) /\
    Registry.browser (Registry.closeSession env sessionId st).2
      = (if bool_decide (is_Some (Registry.sessions st !! sessionId))
            && bool_decide (delete sessionId (Registry.sessions st) = ∅)
         then None else Registry.browser st) /\
    Registry.heap (Registry.closeSession env sessionId st).2 = Registry.heap st /\
    Registry.pendingRequests (Registry.closeSession env sessionId st).2
      = Registry.pendingRequests st /\
    Registry.pages (Registry.closeSession env sessionId st).2 = Registry.pages st.
Proof.
  intros env sessionId st Hp Hb.
  rewrite (closeSession_quiet env sessionId st Hp Hb).
  destruct (Registry.sessions st !! sessionId) as [s |] eqn:Hs.
  - rewrite (bool_decide_eq_true_2 (is_Some (Some s))) by eauto. cbn [andb fst snd].
    case_bool_decide; cbn; done.
  - rewrite (bool_decide_eq_false_2 (is_Some None)) by (by intros [? ?]).
    cbn. by rewrite delete_id.
Qed.

Lemma closeSession_removes_exactly_one_witness :
  (Registry.closeSession Examples.quiet_close "main" Examples.one_session).1
    = Ok true /\
  Registry.browser
    (Registry.closeSession Examples.quiet_close "main" Examples.one_session).2
    = None.
Proof.
  destruct (closeSession_removes_exactly_one Examples.quiet_close "main"
              Examples.one_session eq_refl eq_refl) as (Hr & _ & Hb & _).
  split; [rewrite Hr | rewrite Hb]; vm_compute; reflexivity.
Defined.

(** X2.  [openSession] on a free name, when no engine call rejects, returns
    a session stored under that name, on a page no earlier session has,
    created at the clock's reading; the other names keep their sessions;
    the browser handle is live and connected afterwards, and a handle that
    was live and connected before is the one that is kept, without a new
    launch. *)
Theorem openSession_registers :
  forall (env : Registry.OpenEnv) (sessionId url : string) (st : Registry.State),
    Registry.sessions st !! sessionId = None ->
    Registry.undisturbed (Registry.StepOpen env sessionId url) = true ->
    exists session : Registry.Session,
      (Registry.openSession env sessionId url st).1 = Ok session /\
      Registry.id session = sessionId /\
      Registry.createdAt session = Registry.now env /\
      Registry.page session = Registry.pages st /\
      Registry.pages (Registry.openSession env sessionId url st).2
        = S (Registry.pages st) /\
      Registry.getSession (Registry.openSession env sessionId url st).2 sessionId
        = Some session /\
      (forall other, other <> sessionId ->
         Registry.getSession (Registry.openSession env sessionId url st).2 other
           = Registry.getSession st other) /\
      (exists b,
         Registry.browser (Registry.openSession env sessionId url st).2 = Some b /\
         Registry.isConnected b = true) /\
      (forall b, Registry.browser st = Some b -> Registry.isConnected b = true ->
         Registry.browser (Registry.openSession env sessionId url st).2 = Some b /\
         Registry.launched (Registry.openSession env sessionId url st).2
           = Registry.launched st).
Proof.
  intros env sessionId url st Hfresh Hq.
  rewrite (openSession_quiet env sessionId url st Hfresh Hq).
  destruct (navigated_spec env st) as (Hs & Hp & Hb).
  destruct (ensureBrowser_resolves st) as (b & _ & Hb' & Hc & _ & _ & _ & _ & _ & Hkeep).
  eexists. cbn [fst snd]. split; [reflexivity |].
  unfold Registry.getSession. cbn.
  repeat (split; [done |]).
  split; [by rewrite lookup_insert_eq |].
  split; [intros other Hne; by rewrite lookup_insert_ne |].
  split; [exists b; by rewrite Hb, Hb' |].
  intros b0 Hb0 Hc0. destruct (Hkeep b0 Hb0 Hc0) as [<- Hl].
  split; [by rewrite Hb, Hb' |].
  unfold Server.navigated. rewrite launched_dispatchAll. cbn. exact Hl.
Qed.

Lemma openSession_registers_witness :
  exists session : Registry.Session,
    (Registry.openSession (Examples.quiet_open []) "second" "http://localhost/2"
       Examples.one_session).1 = Ok session /\
    Registry.page session = 1.
Proof.
  destruct (openSession_registers (Examples.quiet_open []) "second"
              "http://localhost/2" Examples.one_session)
    as (session & Hr & _ & _ & Hp & _).
  - vm_compute. reflexivity.
  - reflexivity.
  - exists session. split; [exact Hr |]. rewrite Hp. vm_compute. reflexivity.
Defined.

(** X3.  Opening a free name and closing it again, no engine call
    rejecting, restores the session map; when the map was empty, the
    browser handle that the open launched is released by the close, and
    otherwise the handle stays. *)
Theorem open_then_close_restores :
  forall (env : Registry.OpenEnv) (cenv : Registry.CloseEnv)
         (sessionId url : string) (st : Registry.State),
    Registry.sessions st !! sessionId = None ->
    Registry.undisturbed (Registry.StepOpen env sessionId url) = true ->
    Registry.undisturbed (Registry.StepClose cenv sessionId) = true ->
    (Registry.closeSession cenv sessionId
       (Registry.openSession env sessionId url st).2).1 = Ok true /\
    Registry.sessions
      (Registry.closeSession cenv sessionId
         (Registry.openSession env sessionId url st).2).2
      = Registry.sessions st /\
    (Registry.sessions st = ∅ ->
     Registry.browser
       (Registry.closeSession cenv sessionId
          (Registry.openSession env sessionId url st).2).2 = None) /\
    (Registry.sessions st <> ∅ ->
     Registry.browser
       (Registry.closeSession cenv sessionId
          (Registry.openSession env sessionId url st).2).2
       = Registry.browser (Registry.openSession env sessionId url st).2).
Proof.
  intros env cenv sessionId url st Hfresh Hq Hc.
  assert (Hpc : Registry.page_close cenv = Resolves /\
                Registry.browser_close cenv = Resolves).
  { cbn in Hc. by destruct (Registry.page_close cenv),
      (Registry.browser_close cenv). }
  destruct Hpc as [Hpc Hbc].
  rewrite (closeSession_quiet cenv sessionId _ Hpc Hbc).
  rewrite (openSession_quiet env sessionId url st Hfresh Hq). cbn [snd].
  cbn [Registry.sessions Registry.set_sessions].
  rewrite lookup_insert_eq, delete_insert_id by done.
  split; [done |].
  case_bool_decide as He; cbn.
  - repeat (split; [done |]). done.
  - split; [done |]. split; [done |]. done.
Qed.

Lemma open_then_close_restores_witness :
  Registry.browser
    (Registry.closeSession Examples.quiet_close "main"
       (Registry.openSession (Examples.quiet_open []) "main" "http://localhost/"
          Registry.initial).2).2 = None.
Proof.
  destruct (open_then_close_restores (Examples.quiet_open []) Examples.quiet_close
              "main" "http://localhost/" Registry.initial eq_refl eq_refl eq_refl)
    as (_ & _ & Hb & _).
  apply Hb. reflexivity.
Defined.

(** X4.  When every page and the browser close without error, [shutdown]
    leaves no session and no browser handle, whatever the state it starts
    from (a browser left alive without sessions included), keeps the
    diagnostics objects, and a second [shutdown] changes nothing. *)
Theorem shutdown_releases_everything :
  forall st : Registry.State,
    (Registry.shutdown Resolves Resolves st).1 = Ok tt /\
    Registry.sessions (Registry.shutdown Resolves Resolves st).2 = ∅ /\
    Registry.browser (Registry.shutdown Resolves Resolves st).2 = None /\
    Registry.listSessions (Registry.shutdown Resolves Resolves st).2 = [] /\
    Registry.heap (Registry.shutdown Resolves Resolves st).2 = Registry.heap st /\
    Registry.shutdown Resolves Resolves (Registry.shutdown Resolves Resolves st).2
      = (Ok tt, (Registry.shutdown Resolves Resolves st).2).
Proof.
  intros st. destruct st as [br ss pr hl hp ri la pg].
  unfold Registry.shutdown, Registry.listSessions,
    Registry.set_sessions, Registry.set_browser.
  destruct br as [b |]; cbn; rewrite ?map_to_list_empty; done.
Qed.

(** X5.  Along every sequence of [openSession] and [closeSession] calls
    from the initial state in which no engine call rejects, the browser
    handle is null exactly when no session is open. *)
Theorem engine_live_iff_sessions_open :
  forall steps : list Registry.Step,
    forallb Registry.undisturbed steps = true ->
    (Registry.browser (Registry.run steps Registry.initial) = None <->
     Registry.sessions (Registry.run steps Registry.initial) = ∅).
Proof. intros steps Hq. exact (proj1 (run_undisturbed steps Hq)). Qed.

Lemma engine_live_iff_sessions_open_witness :
  Registry.browser
    (Registry.run [Registry.StepOpen (Examples.quiet_open []) "a" "http://localhost/";
                   Registry.StepOpen (Examples.quiet_open []) "b" "http://localhost/";
                   Registry.StepClose Examples.quiet_close "a";
                   Registry.StepClose Examples.quiet_close "b"]
       Registry.initial) = None /\
  Registry.browser
    (Registry.run [Registry.StepOpen (Examples.quiet_open []) "a" "http://localhost/";
                   Registry.StepOpen (Examples.quiet_open []) "b" "http://localhost/";
                   Registry.StepClose Examples.quiet_close "a"]
       Registry.initial) <> None.
Proof.
  split.
  - apply (engine_live_iff_sessions_open
             [Registry.StepOpen (Examples.quiet_open []) "a" "http://localhost/";
              Registry.StepOpen (Examples.quiet_open []) "b" "http://localhost/";
              Registry.StepClose Examples.quiet_close "a";
              Registry.StepClose Examples.quiet_close "b"] eq_refl).
    vm_compute. reflexivity.
  - intros Hnone.
    apply (engine_live_iff_sessions_open
             [Registry.StepOpen (Examples.quiet_open []) "a" "http://localhost/";
              Registry.StepOpen (Examples.quiet_open []) "b" "http://localhost/";
              Registry.StepClose Examples.quiet_close "a"] eq_refl) in Hnone.
    assert (Hb : Registry.sessions
                   (Registry.run
                      [Registry.StepOpen (Examples.quiet_open []) "a" "http://localhost/";
                       Registry.StepOpen (Examples.quiet_open []) "b" "http://localhost/";
                       Registry.StepClose Examples.quiet_close "a"]
                      Registry.initial) !! "b"%string <> None)
      by (vm_compute; discriminate).
    apply Hb. rewrite Hnone. apply lookup_empty.
Defined.

(** X6.  [listSessions] lists exactly the names [getSession] finds, each
    once. *)
Theorem listSessions_lists_open_names :
  forall (st : Registry.State) (name : string),
    (name ∈ Registry.listSessions st <-> is_Some (Registry.getSession st name)) /\
    NoDup (Registry.listSessions st) /\
    length (Registry.listSessions st) = size (Registry.sessions st).
Proof.
  intros st name. unfold Registry.listSessions, Registry.getSession.
  split; [| split].
  - rewrite list_elem_of_fmap. split.
    + intros ([k s] & -> & Hin). apply elem_of_map_to_list in Hin. by exists s.
    + intros [s Hs]. exists (name, s). split; [done |].
      by apply elem_of_map_to_list.
  - apply NoDup_fst_map_to_list.
  - by rewrite length_fmap, length_map_to_list.
Qed.

(** ** Invariants of the states the module can reach *)
Section ServerFacts.
Import Registry Server.

Lemma deref_dispatch_other d d' ev st :
  d' <> d -> deref (dispatch d ev st) d' = deref st d'.
Proof.
  intros Hne.
  destruct ev; cbn [dispatch];
    unfold onConsole, onRequest, onResponse, onRequestFailed;
    rewrite ?deref_delete_pending, ?deref_push_console, ?deref_push_network;
    try done; by case_decide.
Qed.

Lemma heap_dispatch d ev st d' :
  (is_Some (heap st !! d') -> is_Some (heap (dispatch d ev st) !! d')) /\
  (is_Some (heap (dispatch d ev st) !! d') -> d' = d \/ is_Some (heap st !! d')).
Proof.
  assert (Hdel : forall rid s, heap (delete_pending rid s) = heap s).
  { intros rid s. unfold delete_pending. by repeat case_match. }
  destruct ev; cbn [dispatch];
    unfold onConsole, onRequest, onResponse, onRequestFailed;
    rewrite ?Hdel; unfold push_console, push_network; cbn;
    try (split; [done | by right]);
    (destruct (decide (d = d')) as [-> | Hne];
     [rewrite lookup_insert_eq; split; [by eauto | by left]
     | rewrite lookup_insert_ne by done; split; [done | by right]]).
Qed.

Lemma heap_dispatchAll d evs st d' :
  (is_Some (heap st !! d') -> is_Some (heap (dispatchAll d evs st) !! d')) /\
  (is_Some (heap (dispatchAll d evs st) !! d') -> d' = d \/ is_Some (heap st !! d')).
Proof.
  unfold dispatchAll. revert st.
  induction evs as [| ev evs IH]; intros st; [by split; [| right] |].
  cbn [fold_left]. destruct (IH (dispatch d ev st)) as [IH1 IH2].
  destruct (heap_dispatch d ev st d') as [H1 H2].
  split; [by auto |]. intros H. destruct (IH2 H) as [-> | H']; [by left | by auto].
Qed.

(** A state with the same sessions, at least as many pages and more
    diagnostics objects, all of pages that exist, is as well formed. *)
Lemma sessions_wf_mono st st' :
  sessions_wf st ->
  sessions st' = sessions st ->
  pages st <= pages st' ->
  (forall d, is_Some (heap st !! d) -> is_Some (heap st' !! d)) ->
  (forall d, is_Some (heap st' !! d) -> d < pages st') ->
  sessions_wf st'.
Proof.
  intros (Hs & Hinj & Hh) Hss Hp Hsub Hdom. split; [| split].
  - intros k s Hk. rewrite Hss in Hk. destruct (Hs k s Hk) as (? & ? & ? & ?).
    repeat split; [done | done | lia | by apply Hsub].
  - intros k1 k2 s1 s2. rewrite Hss. apply Hinj.
  - done.
Qed.

Lemma sessions_wf_subset st st' :
  sessions_wf st ->
  sessions st' ⊆ sessions st ->
  pages st' = pages st -> heap st' = heap st ->
  sessions_wf st'.
Proof.
  intros (Hs & Hinj & Hh) Hss Hp Hheap. split; [| split].
  - intros k s Hk. rewrite Hp, Hheap. apply Hs.
    by eapply lookup_weaken.
  - intros k1 k2 s1 s2 H1 H2. eapply Hinj; by eapply lookup_weaken.
  - rewrite Hp, Hheap. done.
Qed.

Lemma ensureBrowser_frame l st :
  sessions (ensureBrowser l st).2 = sessions st /\
  pages (ensureBrowser l st).2 = pages st /\
  heap (ensureBrowser l st).2 = heap st.
Proof. unfold ensureBrowser. by repeat case_match. Qed.

Lemma openSession_wf env sessionId url st :
  sessions_wf st -> sessions_wf (openSession env sessionId url st).2.
Proof.
  intros Hwf. unfold openSession. case_decide as Hdup; [done |].
  destruct (ensureBrowser_frame (launch env) st) as (Hs1 & Hp1 & Hh1).
  destruct (ensureBrowser (launch env) st) as [[b | m] st1]; cbn [snd] in *.
  2: { apply (sessions_wf_mono st); rewrite ?Hp1, ?Hh1; try done.
       destruct Hwf as (_ & _ & Hh). done. }
  assert (Hwf1 : sessions_wf st1).
  { apply (sessions_wf_mono st); rewrite ?Hp1, ?Hh1; try done.
    destruct Hwf as (_ & _ & Hh). done. }
  destruct (newPage env); [| done].
  assert (Hwf2 : sessions_wf (set_pages (S (pages st1)) st1)).
  { apply (sessions_wf_mono st1); cbn; try done; [lia |].
    intros d Hd. destruct Hwf1 as (_ & _ & Hh). specialize (Hh d Hd). lia. }
  destruct (setViewportSize env); [| done].
  match goal with |- context [dispatchAll ?p ?evs ?s0] =>
    pose proof (heap_dispatchAll p evs s0) as Hheap;
    destruct (sessions_dispatchAll p evs s0) as [Hss _];
    pose proof (pages_dispatchAll p evs s0) as Hpp;
    set (st4 := dispatchAll p evs s0) in *; clearbody st4 end.
  cbn in Hheap, Hss, Hpp.
  assert (Hwf4 : sessions_wf st4).
  { apply (sessions_wf_mono (set_pages (S (pages st1)) st1));
      [done | done | by rewrite Hpp | |].
    - intros d Hd. apply Hheap.
      destruct (decide (pages st1 = d)) as [-> | Hne];
        [rewrite lookup_insert_eq; eauto | by rewrite lookup_insert_ne].
    - intros d Hd. rewrite Hpp.
      destruct (proj2 (Hheap d) Hd) as [-> | Hin]; [lia |].
      destruct (decide (pages st1 = d)) as [<- | Hne]; [lia |].
      rewrite lookup_insert_ne in Hin by done.
      destruct Hwf1 as (_ & _ & Hh). specialize (Hh d Hin). lia. }
  assert (Hp4 : is_Some (heap st4 !! pages st1)).
  { apply Hheap. rewrite lookup_insert_eq. eauto. }
  destruct Hwf4 as (Hs4 & Hinj4 & Hh4).
  rename Hpp into Hpg4.
  destruct (goto env); [| done]. cbn [snd].
  split; [| split]; cbn.
  - intros k s. destruct (decide (sessionId = k)) as [<- | Hne].
    + rewrite lookup_insert_eq. intros [= <-]. cbn. rewrite Hpg4.
      repeat split; [lia | done].
    + rewrite lookup_insert_ne by done. apply Hs4.
  - intros k1 k2 s1 s2.
    destruct (decide (sessionId = k1)) as [<- | Hne1],
             (decide (sessionId = k2)) as [<- | Hne2]; try done.
    + rewrite lookup_insert_eq, lookup_insert_ne by done.
      intros [= <-] H2 Hpage. cbn in Hpage. rewrite Hss in H2.
      destruct Hwf1 as (Hs1' & _).
      destruct (Hs1' k2 s2 H2) as (_ & _ & Hlt & _). lia.
    + rewrite lookup_insert_ne, lookup_insert_eq by done.
      intros H1 [= <-] Hpage. cbn in Hpage. rewrite Hss in H1.
      destruct Hwf1 as (Hs1' & _).
      destruct (Hs1' k1 s1 H1) as (_ & _ & Hlt & _). lia.
    + rewrite !lookup_insert_ne by done. apply Hinj4.
  - done.
Qed.

Lemma closeSession_wf env sessionId st :
  sessions_wf st -> sessions_wf (closeSession env sessionId st).2.
Proof.
  intros Hwf. unfold closeSession.
  repeat case_match; try done; cbn;
    (apply (sessions_wf_subset st); [done | | done | done]);
    cbn; apply delete_subseteq.
Qed.

Lemma shutdown_wf pc bc st :
  sessions_wf st -> sessions_wf (shutdown pc bc st).2.
Proof.
  intros Hwf. unfold shutdown.
  repeat case_match; try done; cbn;
    (apply (sessions_wf_subset st); [done | | done | done]);
    cbn; apply map_empty_subseteq.
Qed.

Lemma handler_frame params st :
  sessions (Diagnostics.handler params st).2 = sessions st /\
  pages (Diagnostics.handler params st).2 = pages st /\
  browser (Diagnostics.handler params st).2 = browser st /\
  pendingRequests (Diagnostics.handler params st).2 = pendingRequests st /\
  (forall d, is_Some (heap st !! d) ->
             is_Some (heap (Diagnostics.handler params st).2 !! d)) /\
  (forall d, is_Some (heap (Diagnostics.handler params st).2 !! d) ->
             is_Some (heap st !! d) \/
             exists s, getSession st (Diagnostics.p_session params) = Some s /\
                       d = diagnostics s).
Proof.
  unfold Diagnostics.handler. cbv zeta.
  destruct (getSession st (Diagnostics.p_session params)) as [s |] eqn:Hs;
    [| by repeat split; auto].
  destruct (Diagnostics.selects_console _), (Diagnostics.selects_network _),
    (default false (Diagnostics.p_clear params)); cbn;
    (split; [done |]); (split; [done |]); (split; [done |]); (split; [done |]);
    split; intros d;
    unfold Diagnostics.clear_console, Diagnostics.clear_network; cbn;
    rewrite ?lookup_insert; repeat case_decide; subst; naive_solver.
Qed.

Lemma handler_wf params st :
  sessions_wf st -> sessions_wf (Diagnostics.handler params st).2.
Proof.
  intros Hwf.
  destruct (handler_frame params st) as (Hs & Hp & _ & _ & Hsub & Hdom).
  apply (sessions_wf_mono st); try done; [lia |].
  intros d Hd. rewrite Hp. destruct Hwf as (Hss & _ & Hh).
  destruct (Hdom d Hd) as [Hin | (s & Hget & ->)]; [by apply Hh |].
  destruct (Hss _ s Hget) as (_ & -> & Hlt & _). done.
Qed.

Lemma perform_wf c st : sessions_wf st -> sessions_wf (perform c st).
Proof.
  intros Hwf. destruct c; cbn [perform].
  - by apply openSession_wf.
  - by apply closeSession_wf.
  - by apply shutdown_wf.
  - by apply handler_wf.
  - case_decide as Hd; [| done].
    destruct (sessions_dispatch d ev st) as [Hs _].
    apply (sessions_wf_mono st); try done.
    + by rewrite pages_dispatch.
    + intros d'. apply heap_dispatch.
    + intros d' Hd'. rewrite pages_dispatch.
      destruct Hwf as (_ & _ & Hh).
      destruct (proj2 (heap_dispatch d ev st d') Hd') as [-> | Hin]; by apply Hh.
Qed.

Lemma performAll_snoc calls c st :
  performAll (calls ++ [c]) st = perform c (performAll calls st).
Proof. unfold performAll. by rewrite fold_left_app. Qed.

Lemma performAll_wf calls : sessions_wf (performAll calls initial).
Proof.
  induction calls as [| c calls IH] using rev_ind.
  - split; [| split]; cbn; intros *; rewrite ?lookup_empty;
      try done; by intros [? ?].
  - rewrite performAll_snoc. by apply perform_wf.
Qed.

Lemma handler_bounded params st :
  buffers_bounded st -> buffers_bounded (Diagnostics.handler params st).2.
Proof.
  intros Hb d.
  destruct (getSession st (Diagnostics.p_session params)) as [s |] eqn:Hs.
  - destruct (handler_found params st s Hs) as (_ & _ & Hc & Hn & _ & Hothers).
    destruct (decide (d = diagnostics s)) as [-> | Hne].
    + rewrite Hc, Hn. destruct (Hb (diagnostics s)) as [? ?].
      unfold Buffer.MAX_BUFFER_SIZE in *. split; repeat case_match; cbn; lia.
    + rewrite (Hothers d Hne). apply Hb.
  - unfold Diagnostics.handler. rewrite Hs. apply Hb.
Qed.

Lemma shutdown_bounded pc bc st :
  buffers_bounded st -> buffers_bounded (shutdown pc bc st).2.
Proof. intros Hb. unfold shutdown. by repeat case_match. Qed.

Lemma performAll_bounded calls : buffers_bounded (performAll calls initial).
Proof.
  induction calls as [| c calls IH] using rev_ind.
  - apply initial_bounded.
  - rewrite performAll_snoc. destruct c; cbn [perform].
    + by apply openSession_bounded.
    + by apply closeSession_bounded.
    + by apply shutdown_bounded.
    + by apply handler_bounded.
    + case_decide; [by apply dispatch_bounded | done].
Qed.

End ServerFacts.

Section OutcomeFacts.
Import Registry Server.

Lemma elem_of_addToBuffer {T} (b : list T) (e x : T) :
  x ∈ Buffer.addToBuffer b e -> x ∈ b \/ x = e.
Proof.
  unfold Buffer.addToBuffer. cbv zeta. intros Hin.
  assert (Hin' : x ∈ b ++ [e]).
  { case_match; [| done]. destruct b; cbn in Hin; [| by right].
    by apply elem_of_nil in Hin. }
  apply elem_of_app in Hin' as [? | Hin']; [by left | right].
  by apply list_elem_of_singleton in Hin'.
Qed.

Lemma dispatch_outcomes d ev st :
  outcomes_exclusive st -> outcomes_exclusive (dispatch d ev st).
Proof.
  intros Ho d' e.
  destruct ev; cbn [dispatch];
    unfold onConsole, onRequest, onResponse, onRequestFailed;
    rewrite ?deref_delete_pending, ?deref_push_console, ?deref_push_network;
    try apply Ho; case_decide; cbn; try apply Ho;
    intros [Hin | ->]%elem_of_addToBuffer; try (by eapply Ho);
    [left | right]; cbn; eauto.
Qed.

Lemma dispatchAll_outcomes d evs st :
  outcomes_exclusive st -> outcomes_exclusive (dispatchAll d evs st).
Proof.
  unfold dispatchAll. revert st.
  induction evs as [| ev evs IH]; intros st Ho; [done |].
  cbn [fold_left]. by apply IH, dispatch_outcomes.
Qed.

Lemma openSession_outcomes env sessionId url st :
  outcomes_exclusive st -> outcomes_exclusive (openSession env sessionId url st).2.
Proof.
  intros Ho. unfold openSession. case_decide; [done |].
  assert (Ho1 : outcomes_exclusive (ensureBrowser (launch env) st).2).
  { unfold ensureBrowser. by repeat case_match. }
  destruct (ensureBrowser (launch env) st) as [[b | m] st1]; [| done].
  cbn [snd] in Ho1.
  destruct (newPage env); [| done].
  destruct (setViewportSize env); [| done].
  match goal with |- context [dispatchAll ?p ?evs ?s0] =>
    assert (Ho4 : outcomes_exclusive (dispatchAll p evs s0)) end.
  { apply dispatchAll_outcomes. intros d e. unfold deref. cbn.
    destruct (decide (pages st1 = d)) as [-> | Hne].
    - rewrite lookup_total_insert_eq. cbn. by intros ?%elem_of_nil.
    - rewrite lookup_total_insert_ne by done. apply Ho1. }
  by destruct (goto env).
Qed.

Lemma handler_outcomes params st :
  outcomes_exclusive st -> outcomes_exclusive (Diagnostics.handler params st).2.
Proof.
  intros Ho d e.
  destruct (getSession st (Diagnostics.p_session params)) as [s |] eqn:Hs.
  - destruct (handler_found params st s Hs) as (_ & _ & _ & Hn & _ & Hothers).
    destruct (decide (d = diagnostics s)) as [-> | Hne].
    + rewrite Hn. case_match; [by intros ?%elem_of_nil | apply Ho].
    + rewrite (Hothers d Hne). apply Ho.
  - unfold Diagnostics.handler. rewrite Hs. apply Ho.
Qed.

Lemma performAll_outcomes calls : outcomes_exclusive (performAll calls initial).
Proof.
  induction calls as [| c calls IH] using rev_ind.
  - intros d e. unfold deref. cbn. rewrite lookup_total_empty. cbn.
    by intros ?%elem_of_nil.
  - rewrite performAll_snoc. destruct c; cbn [perform].
    + by apply openSession_outcomes.
    + unfold closeSession. by repeat case_match.
    + unfold shutdown. by repeat case_match.
    + by apply handler_outcomes.
    + case_decide; [by apply dispatch_outcomes | done].
Qed.

End OutcomeFacts.

(** X7.  In every state the module can reach through [openSession],
    [closeSession], [shutdown], [diagnostics] calls and page events, every
    console buffer and every network buffer holds at most 100 entries. *)
Theorem reachable_buffers_within_cap :
  forall (calls : list Server.Call) (d : nat),
    length (Registry.console
              (Registry.deref (Server.performAll calls Registry.initial) d)) <= 100 /\
    length (Registry.network
              (Registry.deref (Server.performAll calls Registry.initial) d)) <= 100.
Proof. intros calls d. apply (performAll_bounded calls d). Qed.

(** X8.  In every reachable state two sessions under different names have
    different pages and different diagnostics objects, each session is
    stored under its own [id], and so neither a [diagnostics] call on one
    session (clearing included) nor an event of its page changes the
    buffers of the other. *)
Theorem sessions_do_not_share_buffers :
  forall (calls : list Server.Call) (a b : string) (sa sb : Registry.Session),
    Registry.getSession (Server.performAll calls Registry.initial) a = Some sa ->
    Registry.getSession (Server.performAll calls Registry.initial) b = Some sb ->
    a <> b ->
    Registry.id sa = a /\
    Registry.page sa <> Registry.page sb /\
    Registry.diagnostics sa <> Registry.diagnostics sb /\
    (forall params : Diagnostics.DiagnosticsParams,
       Diagnostics.p_session params = a ->
       Registry.deref
         (Diagnostics.handler params (Server.performAll calls Registry.initial)).2
         (Registry.diagnostics sb)
       = Registry.deref (Server.performAll calls Registry.initial)
           (Registry.diagnostics sb)) /\
    (forall ev : Registry.PageEvent,
       Registry.deref
         (Registry.dispatch (Registry.diagnostics sa) ev
            (Server.performAll calls Registry.initial))
         (Registry.diagnostics sb)
       = Registry.deref (Server.performAll calls Registry.initial)
           (Registry.diagnostics sb)).
Proof.
  intros calls a b sa sb Ha Hb Hne.
  destruct (performAll_wf calls) as (Hs & Hinj & _).
  unfold Registry.getSession in Ha, Hb.
  destruct (Hs a sa Ha) as (Hid & Hda & _), (Hs b sb Hb) as (_ & Hdb & _).
  assert (Hpage : Registry.page sa <> Registry.page sb).
  { intros Heq. apply Hne. by eapply Hinj. }
  assert (Hdiag : Registry.diagnostics sb <> Registry.diagnostics sa) by congruence.
  repeat (split; [done || congruence |]). split.
  - intros params Hp.
    assert (Hget : Registry.getSession (Server.performAll calls Registry.initial)
                     (Diagnostics.p_session params) = Some sa)
      by (by rewrite Hp).
    destruct (handler_found params _ sa Hget) as (_ & _ & _ & _ & _ & Hothers).
    by apply Hothers.
  - intros ev. by apply deref_dispatch_other.
Qed.

(** X9.  In every reachable state each entry of a network buffer has a
    status or an error: never both, never neither. *)
Theorem network_entries_have_one_outcome :
  forall (calls : list Server.Call) (d : nat) (e : Registry.NetworkEntry),
    e ∈ Registry.network
          (Registry.deref (Server.performAll calls Registry.initial) d) ->
    (is_Some (Registry.ne_status e) /\ Registry.ne_error e = None) \/
    (Registry.ne_status e = None /\ is_Some (Registry.ne_error e)).
Proof. intros calls d e. apply (performAll_outcomes calls d e). Qed.

Example two_sessions_state :
  Registry.getSession (Server.performAll Scenarios.two_sessions Registry.initial) "main"
    = Some Scenarios.main_session /\
  Registry.getSession (Server.performAll Scenarios.two_sessions Registry.initial) "admin"
    = Some Scenarios.admin_session /\
  Registry.network
    (Registry.deref (Server.performAll Scenarios.two_sessions Registry.initial) 1)
    = [Scenarios.failed_script].
Proof. vm_compute. done. Qed.

Lemma sessions_do_not_share_buffers_witness :
  Registry.diagnostics Scenarios.main_session
    <> Registry.diagnostics Scenarios.admin_session.
Proof.
  destruct (sessions_do_not_share_buffers Scenarios.two_sessions "main" "admin"
              Scenarios.main_session Scenarios.admin_session)
    as (_ & _ & Hd & _).
  - vm_compute. reflexivity.
  - vm_compute. reflexivity.
  - discriminate.
  - exact Hd.
Defined.

Lemma network_entries_have_one_outcome_witness :
  Registry.ne_status Scenarios.failed_script = None /\
  is_Some (Registry.ne_error Scenarios.failed_script).
Proof.
  destruct (network_entries_have_one_outcome Scenarios.two_sessions 1
              Scenarios.failed_script) as [[Hs _] | H].
  - vm_compute. constructor.
  - destruct Hs as [x Hx]. discriminate Hx.
  - exact H.
Defined.

(** ** The observers *)
Section ObserverFacts.
Import Registry.

Lemma requestId_of_nonempty url now : requestId_of url now <> ""%string.
Proof. unfold requestId_of. by destruct url. Qed.

Lemma lookup_pending_Some st rid :
  rid <> ""%string -> lookup_pending st (Some rid) = pendingRequests st !! rid.
Proof. intros Hne. unfold lookup_pending. by case_decide. Qed.

Lemma onResponse_after_onRequest d req now_id now_start status now stamp st :
  onResponse d req status now stamp (onRequest req now_id now_start st) =
    set_pendingRequests
      (delete (requestId_of (req_url req) now_id)
         (<[requestId_of (req_url req) now_id :=
              {| start := now_start; pr_method := req_method req;
                 pr_url := req_url req |}]> (pendingRequests st)))
      (push_network d
         {| ne_method := req_method req; ne_url := req_url req;
            ne_status := Some status;
            ne_duration := Some (now - now_start)%Z;
            ne_error := None; ne_timestamp := stamp |}
         (onRequest req now_id now_start st)).
Proof.
  unfold onResponse. cbv zeta.
  assert (Hid : requestIds (onRequest req now_id now_start st) !! req_obj req
                = Some (requestId_of (req_url req) now_id)).
  { unfold onRequest. cbn. by rewrite lookup_insert_eq. }
  rewrite Hid, lookup_pending_Some by apply requestId_of_nonempty.
  unfold delete_pending.
  case_decide as He; [by apply requestId_of_nonempty in He |].
  assert (Hpend : pendingRequests (onRequest req now_id now_start st)
                  = <[requestId_of (req_url req) now_id :=
                        {| start := now_start; pr_method := req_method req;
                           pr_url := req_url req |}]> (pendingRequests st))
    by done.
  match goal with |- context [pendingRequests (push_network ?d0 ?e ?s)] =>
    destruct (push_network_spec d0 e s) as (_ & _ & -> & _) end.
  rewrite Hpend, lookup_insert_eq. done.
Qed.

End ObserverFacts.


(** X11.  A request whose correlation id is not pending, followed by its
    response: the response observer appends an entry with the request's
    method and URL, the status, and the duration from the request's start
    reading to the response's reading, and the pending requests are again
    what they were before the request. *)
Theorem request_then_response_round_trip :
  forall (d : nat) (req : Registry.Request) (now_id now_start status now stamp : Z)
         (st : Registry.State),
    Registry.pendingRequests st
      !! Registry.requestId_of (Registry.req_url req) now_id = None ->
    last (Registry.network
            (Registry.deref
               (Registry.onResponse d req status now stamp
                  (Registry.onRequest req now_id now_start st)) d))
      = Some {| Registry.ne_method := Registry.req_method req;
                Registry.ne_url := Registry.req_url req;
                Registry.ne_status := Some status;
                Registry.ne_duration := Some (now - now_start)%Z;
                Registry.ne_error := None;
                Registry.ne_timestamp := stamp |} /\
    Registry.pendingRequests
      (Registry.onResponse d req status now stamp
         (Registry.onRequest req now_id now_start st))
      = Registry.pendingRequests st.
Proof.
  intros d req now_id now_start status now stamp st Hfresh.
  rewrite onResponse_after_onRequest. split.
  - unfold Registry.deref. cbn [Registry.heap Registry.set_pendingRequests].
    fold (Registry.deref (Registry.push_network d
      {| Registry.ne_method := Registry.req_method req;
         Registry.ne_url := Registry.req_url req;
         Registry.ne_status := Some status;
         Registry.ne_duration := Some (now - now_start)%Z;
         Registry.ne_error := None; Registry.ne_timestamp := stamp |}
      (Registry.onRequest req now_id now_start st)) d).
    rewrite deref_push_network. case_decide; [| done]. cbn.
    apply last_addToBuffer.
  - cbn. by rewrite delete_insert_id.
Qed.

Lemma request_then_response_round_trip_witness :
  Registry.pendingRequests
    (Registry.onResponse 0 Examples.get_index 200 1007 1007
       (Registry.onRequest Examples.get_index 1000 1000 Registry.initial))
  = Registry.pendingRequests Registry.initial.
Proof.
  apply (request_then_response_round_trip 0 Examples.get_index 1000 1000 200
           1007 1007 Registry.initial).
  reflexivity.
Defined.

Section CollisionFacts.
Import Registry.

Lemma onResponse_spec d req status now stamp st :
  last (network (deref (onResponse d req status now stamp st) d))
    = Some {| ne_method := req_method req; ne_url := req_url req;
              ne_status := Some status;
              ne_duration :=
                duration_of (lookup_pending st (requestIds st !! req_obj req)) now;
              ne_error := None; ne_timestamp := stamp |} /\
  pendingRequests (onResponse d req status now stamp st)
    = pendingRequests (delete_pending (requestIds st !! req_obj req) st) /\
  requestIds (onResponse d req status now stamp st) = requestIds st.
Proof.
  unfold onResponse. cbv zeta.
  match goal with |- context [push_network d ?e st] =>
    destruct (push_network_spec d e st) as (Hnet & _ & Hpend & Hids) end.
  rewrite deref_delete_pending, Hnet.
  split; [apply last_addToBuffer |].
  unfold delete_pending. repeat case_match; cbn; rewrite ?Hpend, ?Hids; done.
Qed.

End CollisionFacts.

(** X12.  Two requests for the same URL whose correlation ids are taken at
    the same clock reading share one id, and the later one overwrites the
    pending record of the earlier.  The response that arrives first is then
    timed from the start of the later request, and the response that
    arrives second finds nothing pending and is recorded without a
    duration. *)
Theorem colliding_requests_share_one_pending_record :
  forall (d : nat) (r1 r2 : Registry.Request)
         (t start1 start2 status1 status2 now1 now2 stamp1 stamp2 : Z)
         (st st2 st3 st4 : Registry.State),
    Registry.req_url r1 = Registry.req_url r2 ->
    Registry.req_obj r1 <> Registry.req_obj r2 ->
    st2 = Registry.onRequest r2 t start2 (Registry.onRequest r1 t start1 st) ->
    st3 = Registry.onResponse d r1 status1 now1 stamp1 st2 ->
    st4 = Registry.onResponse d r2 status2 now2 stamp2 st3 ->
    Registry.ne_duration <$> last (Registry.network (Registry.deref st3 d))
      = Some (Some (now1 - start2)%Z) /\
    Registry.ne_duration <$> last (Registry.network (Registry.deref st4 d))
      = Some None /\
    Registry.pendingRequests st4
      !! Registry.requestId_of (Registry.req_url r1) t = None.
Proof.
  intros d r1 r2 t start1 start2 status1 status2 now1 now2 stamp1 stamp2
    st st2 st3 st4 Hurl Hobj -> -> ->.
  set (rid := Registry.requestId_of (Registry.req_url r1) t).
  set (st2 := Registry.onRequest r2 t start2 (Registry.onRequest r1 t start1 st)).
  assert (Hne : rid <> ""%string) by apply requestId_of_nonempty.
  assert (Hid1 : Registry.requestIds st2 !! Registry.req_obj r1 = Some rid).
  { unfold st2, Registry.onRequest. cbn.
    rewrite lookup_insert_ne by done. by rewrite lookup_insert_eq. }
  assert (Hid2 : Registry.requestIds st2 !! Registry.req_obj r2 = Some rid).
  { unfold st2, Registry.onRequest, rid. cbn.
    rewrite lookup_insert_eq. by rewrite Hurl. }
  assert (Hp : Registry.pendingRequests st2 !! rid
               = Some {| Registry.start := start2;
                         Registry.pr_method := Registry.req_method r2;
                         Registry.pr_url := Registry.req_url r2 |}).
  { unfold st2, Registry.onRequest, rid. cbn.
    rewrite Hurl. by rewrite lookup_insert_eq. }
  destruct (onResponse_spec d r1 status1 now1 stamp1 st2) as (Hl3 & Hp3 & Hi3).
  destruct (onResponse_spec d r2 status2 now2 stamp2
              (Registry.onResponse d r1 status1 now1 stamp1 st2))
    as (Hl4 & Hp4 & _).
  rewrite Hid1, lookup_pending_Some, Hp in Hl3 by done.
  assert (Hgone : Registry.pendingRequests
                    (Registry.onResponse d r1 status1 now1 stamp1 st2) !! rid = None).
  { rewrite Hp3, Hid1. unfold Registry.delete_pending.
    case_decide; [done |]. cbn. apply lookup_delete_eq. }
  rewrite Hi3, Hid2, lookup_pending_Some, Hgone in Hl4 by done.
  rewrite Hl3, Hl4. cbn. split; [done |]. split; [done |].
  rewrite Hp4, Hi3, Hid2. unfold Registry.delete_pending.
  case_decide; [done |]. cbn. apply lookup_delete_eq.
Qed.

Lemma colliding_requests_share_one_pending_record_witness :
  Registry.ne_duration <$>
    last (Registry.network
            (Registry.deref
               (Registry.onResponse 0 Examples.poll_b 200 61 61
                  (Registry.onResponse 0 Examples.poll_a 200 60 60
                     (Registry.onRequest Examples.poll_b 50 52
                        (Registry.onRequest Examples.poll_a 50 50
                           Registry.initial)))) 0))
  = Some None.
Proof.
  destruct (colliding_requests_share_one_pending_record 0 Examples.poll_a
              Examples.poll_b 50 50 52 200 200 60 61 60 61 Registry.initial
              _ _ _ eq_refl ltac:(discriminate) eq_refl eq_refl eq_refl)
    as (_ & H & _).
  exact H.
Defined.

(** ** The diagnostics handler *)
Section ReadFacts.
Import Registry Diagnostics.

Lemma slice_nonneg {A} (k : Z) (l : list A) :
  (0 <= k)%Z -> slice k l = drop (Z.to_nat k) l.
Proof.
  intros Hk. unfold slice.
  destruct (Z.ltb_spec k 0) as [? | _]; [lia |].
  destruct (decide (k <= Z.of_nat (length l))%Z) as [Hle | Hgt].
  - by rewrite Z.min_l.
  - rewrite Z.min_r, Nat2Z.id, drop_all by lia. symmetry. apply drop_ge. lia.
Qed.



End ReadFacts.

(** X13.  A [diagnostics] call changes the module state only to clear: when
    [clear] is omitted or false, or the session does not exist, or the type
    selects neither kind, the state after the call is the state before
    it. *)
Theorem handler_reads_without_side_effect :
  forall (params : Diagnostics.DiagnosticsParams) (st : Registry.State),
    default false (Diagnostics.p_clear params) = false \/
    Registry.getSession st (Diagnostics.p_session params) = None \/
    (Diagnostics.selects_console
       (default "all"%string (Diagnostics.p_type params)) = false /\
     Diagnostics.selects_network
       (default "all"%string (Diagnostics.p_type params)) = false) ->
    (Diagnostics.handler params st).2 = st.
Proof.
  intros params st H. unfold Diagnostics.handler. cbv zeta.
  destruct (Registry.getSession st (Diagnostics.p_session params)) as [s |];
    [| done].
  destruct H as [-> | [H | [-> ->]]]; [| done | done].
  by destruct (Diagnostics.selects_console _), (Diagnostics.selects_network _).
Qed.

Lemma handler_reads_without_side_effect_witness :
  (Diagnostics.handler (Examples.read "all" None (Some 10%Z) None)
     Examples.one_session).2 = Examples.one_session.
Proof.
  apply (handler_reads_without_side_effect
           (Examples.read "all" None (Some 10%Z) None) Examples.one_session).
  left. reflexivity.
Defined.



(** X15.  A limit that is not positive does not cap the answer: with
    [limit = -k] for [k >= 0], each selected kind answers with all its
    entries (after the level filter) except the [k] oldest, most recent
    first; in particular [limit = 0] returns every entry. *)
Theorem handler_nonpositive_limit_skips_oldest :
  forall (params : Diagnostics.DiagnosticsParams) (st : Registry.State)
         (session : Registry.Session) (k : Z),
    Registry.getSession st (Diagnostics.p_session params) = Some session ->
    Diagnostics.p_limit params = Some (- k)%Z ->
    (0 <= k)%Z ->
    Diagnostics.console_of (Diagnostics.handler params st).1 =
      (if Diagnostics.selects_console
            (default "all"%string (Diagnostics.p_type params))
       then Some (reverse (drop (Z.to_nat k)
                    (Diagnostics.by_level (Diagnostics.p_level params)
                       (Registry.console
                          (Registry.deref st (Registry.diagnostics session))))))
       else None) /\
    Diagnostics.network_of (Diagnostics.handler params st).1 =
      (if Diagnostics.selects_network
            (default "all"%string (Diagnostics.p_type params))
       then Some (reverse (drop (Z.to_nat k)
                    (Registry.network
                       (Registry.deref st (Registry.diagnostics session)))))
       else None).
Proof.
  intros params st session k Hs Hl Hk.
  destruct (handler_found params st session Hs) as (Hc & Hn & _).
  rewrite Hc, Hn, Hl. unfold default. cbn [from_option id].
  rewrite Z.opp_involutive. by rewrite !slice_nonneg.
Qed.

Lemma handler_nonpositive_limit_skips_oldest_witness :
  Diagnostics.console_of
    (Diagnostics.handler (Examples.read "console" None (Some 0%Z) None)
       Examples.one_session).1
  = Some [Examples.log_entry].
Proof.
  destruct (handler_nonpositive_limit_skips_oldest
              (Examples.read "console" None (Some 0%Z) None) Examples.one_session
              {| Registry.id := "main"; Registry.page := 0;
                 Registry.createdAt := 1000; Registry.diagnostics := 0 |} 0)
    as [Hc _].
  - vm_compute. reflexivity.
  - reflexivity.
  - reflexivity.
  - rewrite Hc. vm_compute. reflexivity.
Defined.

(** ** Actions on the page *)

(** X16.  Whenever [performAction] returns a result, the result has
    [success = true], echoes the action type and carries no error text (a
    failure is always thrown, never reported in the result), and the
    action has made one or two calls on the page, appended to the calls
    made before. *)
Theorem performAction_result_reports_success :
  forall (E : Actions.Engine) (p : Actions.ActionParams)
         (tr tr' : list Actions.PageOp) (r : Actions.ActionResult),
    Actions.performAction E p tr = (Ok r, tr') ->
    Actions.success r = true /\
    Actions.action r = Actions.a_type p /\
    Actions.r_error r = None /\
    exists ops, tr' = tr ++ ops /\ 1 <= length ops <= 2.
Proof.
  intros E p tr tr' r. unfold Actions.performAction. cbv zeta.
  destruct (Actions.case_of (Actions.a_type p)) as [[] |];
    unfold Actions.bind, Actions.required, Actions.defined, Actions.call,
      Actions.swallow, Actions.page_url, Actions.ret, Actions.throw;
    repeat (case_match; simplify_eq/=; try done);
    intros; simplify_eq/=;
    (repeat split; try done);
    (eexists; split; [rewrite <- ?app_assoc; reflexivity | cbn; lia]).
Qed.

Lemma performAction_result_reports_success_witness :
  exists ops, [Actions.PgGoto "http://localhost/"; Actions.PgClick "#go";
               Actions.PgWaitForLoadState]
              = [Actions.PgGoto "http://localhost/"] ++ ops /\
              1 <= length ops <= 2.
Proof.
  destruct (performAction_result_reports_success Examples.obliging
              (Examples.act "click" (Some "#go"%string) None)
              [Actions.PgGoto "http://localhost/"]
              [Actions.PgGoto "http://localhost/"; Actions.PgClick "#go";
               Actions.PgWaitForLoadState]
              {| Actions.success := true; Actions.action := "click";
                 Actions.r_url := Some "http://localhost/"%string;
                 Actions.r_title := None; Actions.r_selector := None;
                 Actions.r_direction := None; Actions.r_error := None |}
              eq_refl) as (_ & _ & _ & H).
  exact H.
Defined.

(** X17.  An action whose parameters pass the checks starts with one call
    on the page; when the engine rejects that call, [performAction] throws
    the engine's error as it is and makes no further call: no retry, no
    wait, no read of the title. *)
Theorem performAction_stops_at_first_rejection :
  forall (E : Actions.Engine) (p : Actions.ActionParams)
         (tr : list Actions.PageOp) (op : Actions.PageOp) (m : string),
    Effects.first_call p = Some op ->
    Actions.answer E tr op = Throw m ->
    Actions.performAction E p tr = (Throw m, tr ++ [op]).
Proof.
  intros E p tr op m. unfold Effects.first_call, Actions.performAction. cbv zeta.
  destruct (Actions.case_of (Actions.a_type p)) as [[] |]; [.. | done];
    unfold Effects.given, Actions.bind, Actions.required, Actions.defined,
      Actions.call, Actions.ret, Actions.throw, truthy, falsy, or_default;
    destruct (Actions.a_selector p) as [[| c sel] |],
      (Actions.a_value p) as [[| c' v] |],
      (Actions.a_url p) as [[| c'' u] |];
    cbn; intros; simplify_eq/=;
    repeat (case_match; simplify_eq/=); congruence.
Qed.

Lemma performAction_stops_at_first_rejection_witness :
  Actions.performAction Examples.no_button
    (Examples.act "click" (Some "#go"%string) None) []
  = (Throw "Timeout 30000ms exceeded."%string, [] ++ [Actions.PgClick "#go"]).
Proof.
  apply (performAction_stops_at_first_rejection Examples.no_button
           (Examples.act "click" (Some "#go"%string) None) []
           (Actions.PgClick "#go") "Timeout 30000ms exceeded." eq_refl eq_refl).
Defined.

(** X18.  A click that the engine accepts succeeds whether or not the wait
    for the load state that follows it is rejected: the result carries the
    page's URL after the click and the wait. *)
Theorem click_ignores_failed_wait :
  forall (E : Actions.Engine) (p : Actions.ActionParams)
         (tr : list Actions.PageOp) (sel v : string),
    Actions.a_type p = "click"%string ->
    Actions.a_selector p = Some sel -> sel <> ""%string ->
    Actions.answer E tr (Actions.PgClick sel) = Ok v ->
    Actions.performAction E p tr =
      (Ok {| Actions.success := true; Actions.action := "click";
             Actions.r_url :=
               Some (Actions.url_of E
                       (tr ++ [Actions.PgClick sel; Actions.PgWaitForLoadState]));
             Actions.r_title := None; Actions.r_selector := None;
             Actions.r_direction := None; Actions.r_error := None |},
       tr ++ [Actions.PgClick sel; Actions.PgWaitForLoadState]).
Proof.
  intros E p tr sel v Ht Hs Hne Hok. unfold Actions.performAction. cbv zeta.
  rewrite Ht, Hs.
  change (Actions.case_of "click") with (Some Actions.click). cbv iota.
  unfold Actions.bind, Actions.required, Actions.call, Actions.swallow,
    Actions.page_url, Actions.ret.
  case_decide; [done |]. rewrite Hok. cbn [fst snd].
  by rewrite <- app_assoc.
Qed.

Lemma click_ignores_failed_wait_witness :
  exists r, Actions.performAction Examples.obliging
              (Examples.act "click" (Some "#go"%string) None) []
            = (Ok r, [Actions.PgClick "#go"; Actions.PgWaitForLoadState]).
Proof.
  eexists.
  apply (click_ignores_failed_wait Examples.obliging
           (Examples.act "click" (Some "#go"%string) None) [] "#go" ""
           eq_refl eq_refl ltac:(discriminate) eq_refl).
Defined.

(** X19.  For [fill], an empty string is a value like any other (the field
    is filled with it), while an empty selector is rejected like a missing
    one, before any call on the page. *)
Theorem fill_accepts_empty_value_not_empty_selector :
  forall (E : Actions.Engine) (p : Actions.ActionParams)
         (tr : list Actions.PageOp),
    Actions.a_type p = "fill"%string ->
    (forall sel v, Actions.a_selector p = Some sel -> sel <> ""%string ->
       Actions.a_value p = Some v ->
       Actions.performAction E p tr =
         match Actions.answer E tr (Actions.PgFill sel v) with
         | Ok _ =>
             (Ok {| Actions.success := true; Actions.action := "fill";
                    Actions.r_url := None; Actions.r_title := None;
                    Actions.r_selector := Some sel;
                    Actions.r_direction := None; Actions.r_error := None |},
              tr ++ [Actions.PgFill sel v])
         | Throw m => (Throw m, tr ++ [Actions.PgFill sel v])
         end) /\
    (Actions.a_selector p = Some ""%string ->
     Actions.performAction E p tr
       = (Throw "fill requires selector parameter"%string, tr)).
Proof.
  intros E p tr Ht. unfold Actions.performAction. cbv zeta. rewrite Ht.
  change (Actions.case_of "fill") with (Some Actions.fill). cbv iota.
  unfold Actions.bind, Actions.required, Actions.defined, Actions.call,
    Actions.ret, Actions.throw.
  split.
  - intros sel v -> Hne ->. case_decide; [done |].
    by destruct (Actions.answer E tr _).
  - by intros ->.
Qed.

Lemma fill_accepts_empty_value_not_empty_selector_witness :
  Actions.performAction Examples.obliging
    (Examples.act "fill" (Some "#q"%string) (Some ""%string)) []
  = (Ok {| Actions.success := true; Actions.action := "fill";
           Actions.r_url := None; Actions.r_title := None;
           Actions.r_selector := Some "#q"%string;
           Actions.r_direction := None; Actions.r_error := None |},
     [Actions.PgFill "#q" ""]).
Proof.
  destruct (fill_accepts_empty_value_not_empty_selector Examples.obliging
              (Examples.act "fill" (Some "#q"%string) (Some ""%string)) []
              eq_refl) as [H _].
  rewrite (H "#q"%string ""%string eq_refl ltac:(discriminate) eq_refl).
  reflexivity.
Defined.

(** ** The describe tool and the vision providers *)

(** X20.  A provider is configured exactly when its key is set and not
    empty; [getProvider] answers OpenAI whenever OpenAI is configured,
    Anthropic only when OpenAI is not and Anthropic is, and
    [isConfigured] holds exactly when one of the two keys is set and not
    empty. *)
Theorem getProvider_prefers_openai :
  forall env : Describe.ProcessEnv,
    (Describe.getProvider env = Some Describe.openai <->
       truthy (Describe.OPENAI_API_KEY env) = true) /\
    (Describe.getProvider env = Some Describe.anthropic <->
       truthy (Describe.OPENAI_API_KEY env) = false /\
       truthy (Describe.ANTHROPIC_API_KEY env) = true) /\
    (Describe.isConfigured env = true <->
       truthy (Describe.OPENAI_API_KEY env) = true \/
       truthy (Describe.ANTHROPIC_API_KEY env) = true) /\
    (truthy (Some ""%string) = false).
Proof.
  intros env. unfold Describe.isConfigured, Describe.getProvider,
    Describe.openai_isConfigured, Describe.anthropic_isConfigured.
  destruct (truthy (Describe.OPENAI_API_KEY env)),
    (truthy (Describe.ANTHROPIC_API_KEY env)); intuition congruence.
Qed.

(** X21.  Every response of the describe handler has one of three shapes:
    a description with [success = true], a provider and no error; a
    failure with [success = false], an error text and no description; or
    the session-not-found object, the only one that lists the available
    sessions, which has an error text and no [success] field. *)
Theorem describe_response_shapes :
  forall (env : Describe.ProcessEnv) (cam : Describe.Camera)
         (api : Describe.VisionApi) (params : Describe.DescribeParams)
         (st : Registry.State),
    (Describe.success (Describe.handler env cam api params st) = Some true /\
     is_Some (Describe.description (Describe.handler env cam api params st)) /\
     is_Some (Describe.provider (Describe.handler env cam api params st)) /\
     Describe.error (Describe.handler env cam api params st) = None /\
     Describe.availableSessions (Describe.handler env cam api params st) = None) \/
    (Describe.success (Describe.handler env cam api params st) = Some false /\
     Describe.description (Describe.handler env cam api params st) = None /\
     is_Some (Describe.error (Describe.handler env cam api params st)) /\
     Describe.availableSessions (Describe.handler env cam api params st) = None) \/
    (Describe.success (Describe.handler env cam api params st) = None /\
     Describe.description (Describe.handler env cam api params st) = None /\
     is_Some (Describe.error (Describe.handler env cam api params st)) /\
     Describe.availableSessions (Describe.handler env cam api params st)
       = Some (Registry.listSessions st) /\
     Registry.getSession st (Describe.p_session params) = None).
Proof.
  intros env cam api params st. unfold Describe.handler. cbv zeta.
  destruct (Describe.isConfigured env); cbn [negb];
    [| right; left; cbn; eauto].
  destruct (Registry.getSession st (Describe.p_session params)) as [s |];
    [| right; right; cbn; eauto 10].
  unfold Describe.describeImage, Describe.failure.
  repeat case_match; simplify_eq/=; eauto 10.
Qed.

(** X22.  When a selector is given, [fullPage] is ignored: the handler's
    response is the same whatever [fullPage] is. *)
Theorem describe_ignores_fullPage_with_selector :
  forall (env : Describe.ProcessEnv) (cam : Describe.Camera)
         (api : Describe.VisionApi) (params : Describe.DescribeParams)
         (st : Registry.State) (fullPage : option bool),
    truthy (Describe.p_selector params) = true ->
    Describe.handler env cam api
      {| Describe.p_session := Describe.p_session params;
         Describe.p_selector := Describe.p_selector params;
         Describe.p_fullPage := fullPage;
         Describe.p_prompt := Describe.p_prompt params |} st
    = Describe.handler env cam api params st.
Proof.
  intros env cam api params st fullPage Hsel.
  unfold Describe.handler. cbv zeta. cbn. by rewrite Hsel.
Qed.

Lemma describe_ignores_fullPage_with_selector_witness :
  Describe.handler Scenarios.openai_only Scenarios.sighted Scenarios.names_image
    (Scenarios.describe_hero (Some true)) Examples.one_session
  = {| Describe.success := Some true;
       Describe.description := Some "image ZWxlbWVudA=="%string;
       Describe.provider := Some Describe.openai;
       Describe.error := None;
       Describe.availableSessions := None |} /\
  Describe.handler Scenarios.openai_only Scenarios.sighted Scenarios.names_image
    (Scenarios.describe_hero (Some true)) Examples.one_session
  = Describe.handler Scenarios.openai_only Scenarios.sighted Scenarios.names_image
      (Scenarios.describe_hero None) Examples.one_session.
Proof.
  split.
  - etrans.
    + exact (describe_ignores_fullPage_with_selector Scenarios.openai_only
               Scenarios.sighted Scenarios.names_image
               (Scenarios.describe_hero None) Examples.one_session (Some true)
               eq_refl).
    + vm_compute. reflexivity.
  - apply (describe_ignores_fullPage_with_selector Scenarios.openai_only
             Scenarios.sighted Scenarios.names_image
             (Scenarios.describe_hero None) Examples.one_session (Some true)).
    reflexivity.
Defined.

(** Without a selector, on the same page and session, [fullPage] decides
    which screenshot is described. *)
Example describe_fullPage_without_selector :
  Describe.description
    (Describe.handler Scenarios.openai_only Scenarios.sighted Scenarios.names_image
       {| Describe.p_session := "main"; Describe.p_selector := None;
          Describe.p_fullPage := Some true; Describe.p_prompt := None |}
       Examples.one_session) = Some "image ZnVsbA=="%string /\
  Describe.description
    (Describe.handler Scenarios.openai_only Scenarios.sighted Scenarios.names_image
       {| Describe.p_session := "main"; Describe.p_selector := None;
          Describe.p_fullPage := None; Describe.p_prompt := None |}
       Examples.one_session) = Some "image dmlldw=="%string.
Proof. vm_compute. done. Qed.

Section ProviderFacts.
Import Describe Providers.

Lemma getClient_cached key c : getClient key (Some c) = (Some c, Some c).
Proof. done. Qed.

Lemma find_first {A} (P : A -> bool) (pre post : list A) (x : A) :
  Forall (fun y => P y = false) pre -> P x = true ->
  List.find P (pre ++ x :: post) = Some x.
Proof.
  intros Hpre Hx. induction Hpre as [| y pre Hy _ IH]; cbn.
  - by rewrite Hx.
  - by rewrite Hy.
Qed.

Lemma find_none {A} (P : A -> bool) (l : list A) :
  Forall (fun y => P y = false) l -> List.find P l = None.
Proof.
  intros Hl. induction Hl as [| y l Hy _ IH]; cbn; [done |]. by rewrite Hy.
Qed.

End ProviderFacts.

(** X23.  [getClient] builds a client at most once: whenever it returns a
    client, that client is stored and every later call returns it,
    whatever the environment variable holds by then; and it returns no
    client exactly when none is stored and the key is missing or empty. *)
Theorem getClient_keeps_first_client :
  forall (key : option string) (client : option Providers.Client),
    (forall c client',
       Providers.getClient key client = (Some c, client') ->
       client' = Some c /\
       (client = None -> Some (Providers.apiKey c) = key) /\
       forall later, Providers.getClient later client' = (Some c, Some c)) /\
    ((Providers.getClient key client).1 = None <->
       client = None /\ falsy key = true).
Proof.
  intros key client. unfold Providers.getClient. split.
  - intros c client'. destruct client as [c0 |].
    + intros [= <- <-]. done.
    + destruct (falsy key) eqn:Hk; [done |]. intros [= <- <-].
      split; [done |]. split; [| done].
      intros _. destruct key as [k |]; [done | discriminate].
  - destruct client as [c0 |]; cbn; [intuition congruence |].
    destruct (falsy key); cbn; intuition congruence.
Qed.

(** X24.  Through [describeImage] of [vision/index.ts] a provider is only
    called when its key is set, so its wrapper always reaches the remote
    service: the answer is the one computed from the service's response
    with the stored client, or with a client built from the key when none
    is stored; the wrapper's own "not configured" error cannot occur. *)
Theorem configured_provider_reaches_service :
  forall (openai_remote : Providers.OpenAIRemote)
         (anthropic_remote : Providers.AnthropicRemote)
         (env : Describe.ProcessEnv)
         (openai_client anthropic_client : option Providers.Client)
         (p : Describe.VisionProvider) (base64Image prompt : string),
    Describe.getProvider env = Some p ->
    exists c : Providers.Client,
      Providers.api openai_remote anthropic_remote env openai_client
        anthropic_client p base64Image prompt
      = match p with
        | Describe.openai =>
            Providers.openai_content
              (openai_remote c (Providers.openai_request base64Image prompt))
        | Describe.anthropic =>
            Providers.anthropic_content
              (anthropic_remote c (Providers.anthropic_request base64Image prompt))
        end /\
      match p with
      | Describe.openai =>
          openai_client = Some c \/
          (openai_client = None /\
           Describe.OPENAI_API_KEY env = Some (Providers.apiKey c))
      | Describe.anthropic =>
          anthropic_client = Some c \/
          (anthropic_client = None /\
           Describe.ANTHROPIC_API_KEY env = Some (Providers.apiKey c))
      end.
Proof.
  intros ro ra env oc ac p img prompt Hp.
  unfold Describe.getProvider, Describe.openai_isConfigured,
    Describe.anthropic_isConfigured, truthy in Hp.
  unfold Providers.api, Providers.openai_describeImage,
    Providers.anthropic_describeImage, Providers.getClient.
  destruct p.
  - destruct (falsy (Describe.OPENAI_API_KEY env)) eqn:Hk; cbn in Hp;
      [by destruct (negb (falsy (Describe.ANTHROPIC_API_KEY env))) |].
    destruct oc as [c |]; cbn; [exists c; eauto |].
    eexists. split; [reflexivity |]. right. split; [done |].
    by destruct (Describe.OPENAI_API_KEY env).
  - destruct (falsy (Describe.OPENAI_API_KEY env)) eqn:Hk; cbn in Hp; [| done].
    destruct (falsy (Describe.ANTHROPIC_API_KEY env)) eqn:Hk'; cbn in Hp; [done |].
    destruct ac as [c |]; cbn; [exists c; eauto |].
    eexists. split; [reflexivity |]. right. split; [done |].
    by destruct (Describe.ANTHROPIC_API_KEY env).
Qed.

(** X25.  The Anthropic wrapper returns the text of the first block of
    type ["text"], skipping the blocks before it and returning an empty
    text as it is; it throws "No response from Anthropic" exactly when the
    service's response has no such block. *)
Theorem anthropic_returns_first_text_block :
  forall (pre post : list Providers.ContentBlock) (b : Providers.ContentBlock),
    Forall (fun x => Providers.block_type x <> "text"%string) pre ->
    (Providers.block_type b = "text"%string ->
     Providers.anthropic_content (Ok (pre ++ b :: post))
       = Ok (Providers.block_text b)) /\
    Providers.anthropic_content (Ok pre) = Throw "No response from Anthropic"%string.
Proof.
  intros pre post b Hpre.
  assert (Hpre' : Forall (fun y => bool_decide
                    (Providers.block_type y = "text"%string) = false) pre).
  { eapply Forall_impl; [exact Hpre |]. intros x Hx.
    by apply bool_decide_eq_false_2. }
  unfold Providers.anthropic_content. split.
  - intros Hb. rewrite (find_first _ pre post b Hpre'); [done |].
    by apply bool_decide_eq_true_2.
  - by rewrite (find_none _ pre Hpre').
Qed.

(** X26.  The OpenAI wrapper returns a text exactly when the first choice
    of the service's response has a non-empty content, and then returns
    that content; later choices are never looked at, and an empty content
    is an error ("No response from OpenAI"), unlike in the Anthropic
    wrapper. *)
Theorem openai_returns_first_choice :
  forall (choices : list (option string)) (text : string),
    (Providers.openai_content (Ok choices) = Ok text <->
       head choices = Some (Some text) /\ text <> ""%string) /\
    (Providers.openai_content (Ok choices)
       <> Ok ""%string) /\
    Providers.openai_content (Ok (Some ""%string :: choices))
      = Throw "No response from OpenAI"%string.
Proof.
  intros choices text. unfold Providers.openai_content.
  split; [| split; [| done]].
  - destruct (head choices) as [[content |] |]; [| intuition congruence..].
    case_decide; intuition congruence.
  - destruct (head choices) as [[content |] |]; [| done..].
    case_decide; congruence.
Qed.

Lemma configured_provider_reaches_service_witness :
  Providers.api Scenarios.echo_key Scenarios.silent Scenarios.openai_only
    None None Describe.openai "iVBORw0KGgo=" "What is on the page?"
  = Ok "seen by sk-test"%string.
Proof.
  destruct (configured_provider_reaches_service Scenarios.echo_key
              Scenarios.silent Scenarios.openai_only None None Describe.openai
              "iVBORw0KGgo=" "What is on the page?" eq_refl)
    as (c & Hr & [Hc | [_ Hk]]).
  - discriminate Hc.
  - rewrite Hr. injection Hk as Hk. cbn. by rewrite <- Hk.
Defined.

Lemma anthropic_returns_first_text_block_witness :
  Providers.anthropic_content (Ok Scenarios.tool_then_text)
  = Ok "A login form."%string.
Proof.
  destruct (anthropic_returns_first_text_block
              [{| Providers.block_type := "tool_use"; Providers.block_text := "" |}]
              [{| Providers.block_type := "text"; Providers.block_text := "ignored" |}]
              {| Providers.block_type := "text";
                 Providers.block_text := "A login form." |}) as [H _].
  - constructor; [discriminate | constructor].
  - exact (H eq_refl).
Defined.
